(** * AutoLoginFetchApp: a shallow embedding of the session client

    This development models [src/client/common/AutoLoginFetchApp.ts]
    (the [CustomOptions] revision of the class: configurable
    [maxRetryCount], [cacheExpiration], [leastIntervalMills],
    [reusesExpiredCookies], [storesExpiredCookies], [loginFormInput],
    [requestOptions]).

    Modelling choices:
    - JavaScript values that occur in request options and form data are
      the inductive [jsval]; a plain JS object is an association list in
      property-creation order ([obj]); property assignment replaces the
      value of an existing key in place and appends a new key.
    - The Apps Script services are explicit state: the clock
      ([Date.getTime]), a chronological trace of transport requests,
      [Utilities.sleep] calls and [Cache.put] calls, and the scripted list
      of transport outcomes ([UrlFetchApp.fetch] answers them in order).
    - The HTML primitive ([cheerio.load] followed by a selector query) is a
      function from selector to the matched elements, an element being its
      attribute list.
    - The class state is a record of the readonly fields ([config]) and the
      two mutable fields [cookies] and [lastRequestTime].
    - Code that throws is a state and error monad [M]. *)

From Stdlib Require Import String Ascii List ZArith Bool Lia.
Import ListNotations.
Open Scope string_scope.
Open Scope Z_scope.
Set Warnings "-register-all".

(* ------------------------------------------------------------------ *)
(** ** JavaScript values and plain objects *)

Inductive jsval : Type :=
| JUndef
| JStr (s : string)
| JNum (z : Z)
| JBool (b : bool)
| JObj (o : list (string * jsval)).

Definition obj := list (string * jsval).

(** JavaScript truthiness ([NaN] is not modelled). *)
Definition truthy (v : jsval) : bool :=
  match v with
  | JUndef => false
  | JStr s => negb (String.eqb s "")
  | JNum z => negb (Z.eqb z 0)
  | JBool b => b
  | JObj _ => true
  end.

(** Property read [o[k]] (own properties only). *)
Fixpoint obj_get {V : Type} (o : list (string * V)) (k : string) : option V :=
  match o with
  | [] => None
  | (k', v) :: r => if String.eqb k' k then Some v else obj_get r k
  end.

(** Property assignment [o[k] = v]. *)
Fixpoint obj_set {V : Type} (o : list (string * V)) (k : string) (v : V)
  : list (string * V) :=
  match o with
  | [] => [(k, v)]
  | (k', v') :: r =>
      if String.eqb k' k then (k', v) :: r else (k', v') :: obj_set r k v
  end.

Definition assign_entries (o : obj) (l : obj) : obj :=
  fold_left (fun acc kv => obj_set acc (fst kv) (snd kv)) l o.

(** Object spread [{ ...a, ...b }]. *)
Definition obj_spread (a b : obj) : obj := assign_entries (assign_entries [] a) b.

(* ------------------------------------------------------------------ *)
(** ** String helpers *)

Definition string_of_ascii (a : ascii) : string := String a EmptyString.

Fixpoint split_aux (c : ascii) (s : string) (cur : string) : list string :=
  match s with
  | EmptyString => [cur]
  | String x r =>
      if Ascii.eqb x c then cur :: split_aux c r EmptyString
      else split_aux c r (cur ++ string_of_ascii x)
  end.

(** [s.split(c)] for a one-character separator. *)
Definition split_on (c : ascii) (s : string) : list string := split_aux c s EmptyString.

(** [String.prototype.trim] on the ASCII white space characters. *)
Definition is_ws (a : ascii) : bool :=
  let n := nat_of_ascii a in
  (Nat.eqb n 32 || (Nat.leb 9 n && Nat.leb n 13))%bool.

Fixpoint ltrim (s : string) : string :=
  match s with
  | EmptyString => EmptyString
  | String a r => if is_ws a then ltrim r else s
  end.

Fixpoint string_rev_app (s acc : string) : string :=
  match s with
  | EmptyString => acc
  | String a r => string_rev_app r (String a acc)
  end.

Definition string_rev (s : string) : string := string_rev_app s EmptyString.

Definition trim (s : string) : string := string_rev (ltrim (string_rev (ltrim s))).

(** Split at the first occurrence of [c]: [s.slice(0, i)] and [s.slice(i + 1)]. *)
Fixpoint break_at (c : ascii) (s : string) : option (string * string) :=
  match s with
  | EmptyString => None
  | String x r =>
      if Ascii.eqb x c then Some (EmptyString, r)
      else match break_at c r with
           | Some (b, a) => Some (String x b, a)
           | None => None
           end
  end.

Fixpoint join (sep : string) (l : list string) : string :=
  match l with
  | [] => EmptyString
  | [x] => x
  | x :: r => x ++ sep ++ join sep r
  end.

Definition ch_semicolon : ascii := ascii_of_nat 59.
Definition ch_eq : ascii := ascii_of_nat 61.
Definition ch_percent : ascii := ascii_of_nat 37.
Definition ch_dquote : ascii := ascii_of_nat 34.

(* ------------------------------------------------------------------ *)
(** ** The [cookie] package: [parse] and [serialize]

    [cookie.parse(str)] walks the [;]-separated pairs of [str]; a pair
    without [=] is skipped, the key and value are trimmed, a value that
    starts with a double quote loses its first and last character, a key
    is assigned only once, and a value holding [%] is percent-decoded when
    that succeeds ([tryDecode]).  The UTF-8 validity check of
    [decodeURIComponent] is not modelled. *)

Definition hex_val (a : ascii) : option nat :=
  let n := nat_of_ascii a in
  if (Nat.leb 48 n && Nat.leb n 57)%bool then Some (n - 48)%nat
  else if (Nat.leb 65 n && Nat.leb n 70)%bool then Some (n - 55)%nat
  else if (Nat.leb 97 n && Nat.leb n 102)%bool then Some (n - 87)%nat
  else None.

Fixpoint percent_decode (s : string) : option string :=
  match s with
  | EmptyString => Some EmptyString
  | String a r =>
      if Ascii.eqb a ch_percent then
        match r with
        | String h1 (String h2 r') =>
            match hex_val h1, hex_val h2, percent_decode r' with
            | Some d1, Some d2, Some t => Some (String (ascii_of_nat (d1 * 16 + d2)) t)
            | _, _, _ => None
            end
        | _ => None
        end
      else option_map (String a) (percent_decode r)
  end.

Fixpoint has_char (c : ascii) (s : string) : bool :=
  match s with
  | EmptyString => false
  | String a r => (Ascii.eqb a c || has_char c r)%bool
  end.

Definition tryDecode (str : string) : string :=
  if has_char ch_percent str then
    match percent_decode str with Some d => d | None => str end
  else str.

Definition unquote (v : string) : string :=
  match v with
  | String a r =>
      if Ascii.eqb a ch_dquote then
        (* [val.slice(1, -1)] *)
        match string_rev r with
        | String _ r' => string_rev r'
        | EmptyString => EmptyString
        end
      else v
  | EmptyString => EmptyString
  end.

(** A parsed cookie: the object returned by [cookie.parse]. *)
Definition cookie_obj := list (string * string).

Definition parse_pair (acc : cookie_obj) (seg : string) : cookie_obj :=
  match break_at ch_eq seg with
  | None => acc
  | Some (k0, v0) =>
      let key := trim k0 in
      match obj_get acc key with
      | Some _ => acc
      | None => (acc ++ [(key, tryDecode (unquote (trim v0)))])%list
      end
  end.

Definition cookie_parse (str : string) : cookie_obj :=
  fold_left parse_pair (split_on ch_semicolon str) [].

(** [encodeURIComponent] on the bytes of a UTF-8 string. *)
Definition unreserved (a : ascii) : bool :=
  let n := nat_of_ascii a in
  (Nat.leb 65 n && Nat.leb n 90 || Nat.leb 97 n && Nat.leb n 122
   || Nat.leb 48 n && Nat.leb n 57
   || Nat.eqb n 45 || Nat.eqb n 95 || Nat.eqb n 46 || Nat.eqb n 33
   || Nat.eqb n 126 || Nat.eqb n 42 || Nat.eqb n 39 || Nat.eqb n 40
   || Nat.eqb n 41)%bool.

Definition hex_digit (d : nat) : ascii :=
  if Nat.ltb d 10 then ascii_of_nat (48 + d) else ascii_of_nat (55 + d).

Fixpoint encodeURIComponent (s : string) : string :=
  match s with
  | EmptyString => EmptyString
  | String a r =>
      if unreserved a then String a (encodeURIComponent r)
      else
        let n := nat_of_ascii a in
        String ch_percent
          (String (hex_digit (Nat.div n 16))
             (String (hex_digit (Nat.modulo n 16)) (encodeURIComponent r)))
  end.

(** [fieldContentRegExp = /^[\u0009 -~\u0080-ÿ]+$/]. *)
Definition field_content_char (a : ascii) : bool :=
  let n := nat_of_ascii a in
  (Nat.eqb n 9 || Nat.leb 32 n && Nat.leb n 126 || Nat.leb 128 n)%bool.

Fixpoint all_chars (p : ascii -> bool) (s : string) : bool :=
  match s with
  | EmptyString => true
  | String a r => (p a && all_chars p r)%bool
  end.

Definition field_content (s : string) : bool :=
  match s with
  | EmptyString => false
  | _ => all_chars field_content_char s
  end.

(** [cookie.serialize(name, val)]; [None] is the [TypeError] it throws. *)
Definition cookie_serialize (name val : string) : option string :=
  if field_content name then
    let value := encodeURIComponent val in
    if (negb (String.eqb value "") && negb (field_content value))%bool then None
    else Some (name ++ "=" ++ value)
  else None.

Fixpoint all_some {A : Type} (l : list (option A)) : option (list A) :=
  match l with
  | [] => Some []
  | None :: _ => None
  | Some x :: r => option_map (cons x) (all_some r)
  end.

(** The [Cookie] request header built in [fetch]:
    [this.cookies.flatMap(it => Object.entries(it).map(([key, value]) =>
     cookie.serialize(key, value))).join('; ')]. *)
Definition cookie_header (cs : list cookie_obj) : option string :=
  option_map (join "; ")
    (all_some (flat_map (fun it => map (fun kv => cookie_serialize (fst kv) (snd kv)) it) cs)).

(* ------------------------------------------------------------------ *)
(** ** Responses, the page DOM and the outside world *)

(** An HTML element, as the list of its attributes. *)
Definition element := list (string * string).

(** A loaded page: [$(selector)] gives the matched elements. *)
Definition document := string -> list element.

(** The [Set-Cookie] entry of [response.getAllHeaders()]: absent, one
    string, or an array of strings. *)
Inductive set_cookie_hdr : Type :=
| SCAbsent
| SCOne (s : string)
| SCMany (l : list string).

Record response : Type := mkResponse {
  responseCode : Z;
  setCookie : set_cookie_hdr;
  content : document
}.

(** What [UrlFetchApp.fetch] does on one call: return a response, throw an
    error object carrying [getResponseCode], or throw anything else. *)
Inductive outcome : Type :=
| Respond (r : response)
| FailStatus (code : Z)
| FailOther.

Inductive event : Type :=
| EvRequest (url : string) (params : obj)
| EvSleep (ms : Z)
| EvPut (key : string) (value : list cookie_obj) (ttl : Z).

Record world : Type := mkWorld {
  clock : Z;
  trace : list event;
  script : list outcome
}.

(** The readonly fields of the class. *)
Record config : Type := mkConfig {
  loginUrl : string;
  authOptions : obj;
  maxRetryCount : nat;
  cacheExpiration : Z;
  leastIntervalMills : Z;
  reusesExpiredCookies : bool;
  storesExpiredCookies : bool;
  loginFormInput : string;
  requestOptions : obj;
  cookiesKey : string
}.

Record instance : Type := mkInstance {
  cfg : config;
  cookies : option (list cookie_obj);
  lastRequestTime : Z
}.

Record state : Type := mkState {
  inst : instance;
  wld : world
}.

Inductive error : Type :=
| ErrUnexpected    (* [new Error('Occurred an unexpected error.')] *)
| ErrLoginFailed   (* [new Error('Failed to retrive its Cookie.')] *)
| ErrTypeError     (* a [TypeError] thrown while building the request *)
| ErrFuel.         (* out of recursion budget of the model *)

(* ------------------------------------------------------------------ *)
(** ** A state and error monad *)

Definition M (A : Type) : Type := state -> (error + A) * state.

Definition ret {A : Type} (a : A) : M A := fun s => (inr a, s).

Definition bind {A B : Type} (m : M A) (f : A -> M B) : M B :=
  fun s =>
    match m s with
    | (inl e, s') => (inl e, s')
    | (inr a, s') => f a s'
    end.

Definition throw {A : Type} (e : error) : M A := fun s => (inl e, s).

Definition gets {A : Type} (f : state -> A) : M A := fun s => (inr (f s), s).

Definition modify (f : state -> state) : M unit := fun s => (inr tt, f s).

Notation "x <- m ;; k" := (bind m (fun x => k))
  (at level 61, m at next level, right associativity).
Notation "m ;;; k" := (bind m (fun _ => k))
  (at level 61, right associativity).

Definition set_world (f : world -> world) (s : state) : state :=
  mkState (inst s) (f (wld s)).

Definition set_inst (f : instance -> instance) (s : state) : state :=
  mkState (f (inst s)) (wld s).

Definition emit (e : event) (w : world) : world :=
  mkWorld (clock w) (trace w ++ [e]) (script w).

(** [Utilities.sleep(ms)]. *)
Definition sleep (ms : Z) : M unit :=
  modify (set_world (fun w => mkWorld (clock w + ms) (trace w ++ [EvSleep ms]) (script w))).

(** [new Date().getTime()]. *)
Definition now : M Z := gets (fun s => clock (wld s)).

(** [UrlFetchApp.fetch(url, params)]; an exhausted script throws a plain error. *)
Definition urlFetch (url : string) (params : obj) : M outcome :=
  fun s =>
    let w := wld s in
    let w1 := emit (EvRequest url params) w in
    match script w1 with
    | [] => (inr FailOther, set_world (fun _ => w1) s)
    | o :: rest => (inr o, set_world (fun _ => mkWorld (clock w1) (trace w1) rest) s)
    end.

(** [Cache.put(key, JSON.stringify(value), ttl)]. *)
Definition cache_put (key : string) (value : list cookie_obj) (ttl : Z) : M unit :=
  modify (set_world (emit (EvPut key value ttl))).

Definition set_cookies (c : option (list cookie_obj)) : M unit :=
  modify (set_inst (fun i => mkInstance (cfg i) c (lastRequestTime i))).

Definition set_lastRequestTime (t : Z) : M unit :=
  modify (set_inst (fun i => mkInstance (cfg i) (cookies i) t)).

Definition get_cfg : M config := gets (fun s => cfg (inst s)).

(* ------------------------------------------------------------------ *)
(** ** The class [AutoLoginFetchApp] *)

Section Client.

(** [new Date(str).getTime()]; [None] is an Invalid Date, which compares
    false with every time. *)
Variable date_parse : string -> option Z.

Definition date_before (str : string) (t : Z) : bool :=
  match date_parse str with
  | Some d => d <? t
  | None => false
  end.

(** [it.Expires && new Date(it.Expires) < new Date()] *)
Definition is_expired (t : Z) (it : cookie_obj) : bool :=
  match obj_get it "Expires" with
  | Some e => (negb (String.eqb e "") && date_before e t)%bool
  | None => false
  end.

(** [if (headers['Set-Cookie'])]: an array is truthy even when empty. *)
Definition set_cookie_truthy (h : set_cookie_hdr) : bool :=
  match h with
  | SCAbsent => false
  | SCOne s => negb (String.eqb s "")
  | SCMany _ => true
  end.

(** [Array.isArray(h) ? h : [h]] *)
Definition set_cookie_values (h : set_cookie_hdr) : list string :=
  match h with
  | SCAbsent => []
  | SCOne s => [s]
  | SCMany l => l
  end.

(** The list [saveCookies] assigns to [this.cookies] at time [t]. *)
Definition stored_cookies (storesExpired : bool) (t : Z) (h : set_cookie_hdr)
  : list cookie_obj :=
  let parsed := map cookie_parse (set_cookie_values h) in
  if storesExpired then parsed
  else filter (fun it => negb (is_expired t it)) parsed.

(** [private saveCookies(headers)] *)
Definition saveCookies (headers : set_cookie_hdr) : M bool :=
  if set_cookie_truthy headers then
    c <- get_cfg ;;
    t <- now ;;
    let cs := stored_cookies (storesExpiredCookies c) t headers in
    set_cookies (Some cs) ;;;
    cache_put (cookiesKey c) cs (cacheExpiration c) ;;;
    ret true
  else ret false.

(** [private sleepIfNeeded()] *)
Definition sleepIfNeeded : M unit :=
  t <- now ;;
  last <- gets (fun s => lastRequestTime (inst s)) ;;
  c <- get_cfg ;;
  let interval := t - last in
  if interval <? leastIntervalMills c then sleep (leastIntervalMills c - interval)
  else ret tt.

(** The retry loop of [fetch]:
    [for (let i = 1; i <= this.maxRetryCount; i++) { try { ... } catch (err) { ... } }
     throw new Error('Occurred an unexpected error.')];
    [fetch_attempts i n] runs the iterations [i], ..., [i + n - 1]. *)
Fixpoint fetch_attempts (i n : nat) (url : string) (params : obj) : M response :=
  match n with
  | O => throw ErrUnexpected
  | S n' =>
      sleepIfNeeded ;;;
      o <- urlFetch url params ;;
      match o with
      | Respond r =>
          t <- now ;;
          set_lastRequestTime t ;;;
          saveCookies (setCookie r) ;;;
          ret r
      | FailStatus _ =>
          sleep (1000 * 2 ^ Z.of_nat i) ;;;
          fetch_attempts (S i) n' url params
      | FailOther => fetch_attempts (S i) n' url params
      end
  end.

(** [params.headers = params.headers || {}; params.headers['Cookie'] = hdr];
    assigning a property of a primitive throws in strict mode. *)
Definition attach_cookie (params : obj) (hdr : string) : option obj :=
  let h := match obj_get params "headers" with
           | Some v => if truthy v then v else JObj []
           | None => JObj []
           end in
  match h with
  | JObj o => Some (obj_set params "headers" (JObj (obj_set o "Cookie" (JStr hdr))))
  | _ => None
  end.

(** [fetch] after the cookie retrieval step:
    [params = { ...params, ...this.requestOptions }], the [Cookie] header
    when [this.cookies] is set, then the retry loop.  Objects are values
    here: the spread copies only one level, so in the source
    [params.headers] can be the very object held by [this.requestOptions]
    or by the caller, and the [Cookie] write lands in it.  That sharing is
    modelled in the module [Shared] below; the statements over this model
    speak of the requests sent, the jar, the clock and the cache, which
    the sharing does not touch, and of no [headers] object. *)
Definition fetch_body (url : string) (params : obj) : M response :=
  c <- get_cfg ;;
  cs <- gets (fun s => cookies (inst s)) ;;
  let params1 := obj_spread params (requestOptions c) in
  params2 <-
    match cs with
    | None => ret params1
    | Some l =>
        match cookie_header l with
        | None => throw ErrTypeError
        | Some hdr =>
            match attach_cookie params1 hdr with
            | Some p => ret p
            | None => throw ErrTypeError
            end
        end
    end ;;
  fetch_attempts 1 (maxRetryCount c) url params2.

(** [private parseLoginForm(htmlContent)]: every element matched by
    [this.loginFormInput] with a non-empty [name] gives [name -> val()];
    [val()] of an input is its [value] attribute. *)
Definition parseLoginForm (selector : string) (doc : document) : obj :=
  fold_left
    (fun formData el =>
       match obj_get el "name" with
       | None => formData
       | Some name =>
           if String.eqb name "" then formData
           else obj_set formData name
                  (match obj_get el "value" with Some v => JStr v | None => JUndef end)
       end)
    (doc selector) [].

(** The request options of the login POST ([req] in [retrieveCookies]). *)
Definition login_req (loginFormOptions auth : obj) : obj :=
  [("method", JStr "post");
   ("payload", JObj (obj_spread loginFormOptions auth));
   ("followRedirects", JBool false)].

(** [private retrieveCookies()], over the [fetch] it calls. *)
Definition retrieveCookies_with (fetch : string -> obj -> bool -> M response) : M unit :=
  c <- get_cfg ;;
  loginPage <- fetch (loginUrl c) [] false ;;
  c1 <- get_cfg ;;
  let loginFormOptions := parseLoginForm (loginFormInput c1) (content loginPage) in
  let req := login_req loginFormOptions (authOptions c1) in
  r <- fetch (loginUrl c1) req false ;;
  ok <- saveCookies (setCookie r) ;;
  if ok then ret tt else throw ErrLoginFailed.

(** [public fetch(url, params = {}, shouldRetrieveCookie = true)]; the
    [fuel] bounds the nesting of [fetch] inside [retrieveCookies]. *)
Fixpoint fetch (fuel : nat) (url : string) (params : obj) (shouldRetrieveCookie : bool)
  : M response :=
  fun s =>
    match cookies (inst s) with
    | None =>
        if shouldRetrieveCookie then
          (match fuel with
           | O => throw ErrFuel
           | S f => retrieveCookies_with (fetch f)
           end ;;; fetch_body url params) s
        else fetch_body url params s
    | Some _ => fetch_body url params s
    end.

Definition retrieveCookies (fuel : nat) : M unit := retrieveCookies_with (fetch fuel).

(** Options the constructor merges with [Object.assign(this, customOptions)]
    ([None] is an absent key; [logger] is not modelled). *)
Record custom_options : Type := mkCustomOptions {
  co_maxRetryCount : option nat;
  co_cacheExpiration : option Z;
  co_leastIntervalMills : option Z;
  co_reusesExpiredCookies : option bool;
  co_storesExpiredCookies : option bool;
  co_loginFormInput : option string;
  co_requestOptions : option obj
}.

Definition opt_or {A : Type} (o : option A) (d : A) : A :=
  match o with Some a => a | None => d end.

(** [`AutoLoginFetchApp.${loginUrl}`.substring(0, 250)] *)
Definition cookies_key (lu : string) : string :=
  substring 0 250 ("AutoLoginFetchApp." ++ lu).

(** [constructor(loginUrl, authOptions, customOptions?)]; [cached] is the
    parsed [Cache.get(this.cookiesKey)] and [t] the construction time. *)
Definition construct (lu : string) (auth : obj) (customOptions : option custom_options)
  (cached : option (list cookie_obj)) (t : Z) : instance :=
  let '(mr, ce, li, reuses, stores, lfi, ro) :=
    match customOptions with
    | None => (5%nat, 21600, 5000, false, false, "form input", [])
    | Some o =>
        let reuses0 := opt_or (co_reusesExpiredCookies o) false in
        let stores0 := opt_or (co_storesExpiredCookies o) false in
        (opt_or (co_maxRetryCount o) 5%nat, opt_or (co_cacheExpiration o) 21600,
         opt_or (co_leastIntervalMills o) 5000,
         (* [this.reusesExpiredCookies ||= this.storesExpiredCookies] *)
         (reuses0 || stores0)%bool, stores0,
         opt_or (co_loginFormInput o) "form input", opt_or (co_requestOptions o) [])
    end in
  let c := mkConfig lu auth mr ce li reuses stores lfi ro (cookies_key lu) in
  let cs :=
    match cached with
    | Some l =>
        if negb reuses then
          if existsb (fun it => existsb (fun kv => String.eqb (fst kv) "Expires"
                                                  && date_before (snd kv) t)%bool it) l
          then None else Some l
        else None
    | None => None
    end in
  mkInstance c cs (t - li).

End Client.

(* ------------------------------------------------------------------ *)
(** ** Trace invariants

    [ok_under ev_ok c m]: run from a state whose configuration is [c], the
    computation [m] keeps the configuration, only appends to the trace,
    and every appended event satisfies [ev_ok c]. *)

(* ------------------------------------------------------------------ *)
(** ** Concrete scenarios (after the repository's jest tests) *)

(** A [Date] parser that never succeeds: no cookie of the scenarios
    carries an [Expires] attribute. *)
Definition no_dates : string -> option Z := fun _ => None.

Definition t0 : Z := 1702576800000.

Definition auth0 : obj :=
  [("username", JStr "test_username"); ("password", JStr "test_password")].

(** A login page whose form has the given [action] and the inputs of
    [__tests__/resources/login_action_*.html]. *)
Definition login_page (action : string) : document :=
  fun sel =>
    if String.eqb sel "form input" then
      [[("type", "text"); ("name", "username")];
       [("type", "password"); ("name", "password")];
       [("type", "submit"); ("name", "submit"); ("value", "login")]]
    else if String.eqb sel "form" then [[("action", action)]]
    else [].

Definition empty_doc : document := fun _ => [].

Definition page_response (d : document) : outcome := Respond (mkResponse 200 SCAbsent d).

Definition cookie_response (h : set_cookie_hdr) : outcome :=
  Respond (mkResponse 302 h empty_doc).

Definition start (i : instance) (sc : list outcome) : state :=
  mkState i (mkWorld t0 [] sc).

(** [new AutoLoginFetchApp(lu, auth0, co)] with an empty cache, then
    [client.fetch(url, params)] against the scripted transport. *)
Definition run_fetch (lu : string) (co : option custom_options) (sc : list outcome)
  (url : string) (params : obj) : (error + response) * state :=
  fetch no_dates 1 url params true (start (construct no_dates lu auth0 co None t0) sc).

(** The same with the cache holding [cached]. *)
Definition run_cached (lu : string) (co : option custom_options)
  (cached : list cookie_obj) (sc : list outcome) (url : string) (params : obj)
  : (error + response) * state :=
  fetch no_dates 1 url params true (start (construct no_dates lu auth0 co (Some cached) t0) sc).

Definition client0 : instance := construct no_dates "https://localhost/login" auth0 None None t0.

Definition login_page0 : response :=
  mkResponse 200 SCAbsent (login_page "https://localhost/login-request").

Definition login_post0 : response := mkResponse 302 (SCOne "session_id=xxxxx") empty_doc.

Definition login_state : state := start client0 [Respond login_page0; Respond login_post0].

(** A client with [maxRetryCount = 2], a cached session and a transport
    that answers HTTP 429 twice. *)
Definition retry_state : state :=
  start (construct no_dates "https://localhost/login" auth0
           (Some (mkCustomOptions (Some 2%nat) None None None None None None))
           (Some [[("session_id", "xxxxx")]]) t0)
        [FailStatus 429; FailStatus 429].


Definition request_urls (tr : list event) : list string :=
  flat_map (fun e => match e with EvRequest u _ => [u] | _ => [] end) tr.

Definition request_params (tr : list event) : list obj :=
  flat_map (fun e => match e with EvRequest _ p => [p] | _ => [] end) tr.

Fixpoint last_put_ttl (tr : list event) : option Z :=
  match tr with
  | [] => None
  | EvPut _ _ t :: r => match last_put_ttl r with Some t' => Some t' | None => Some t end
  | _ :: r => last_put_ttl r
  end.

(** The persistence TTL the spec describes ([minimumRemainingTtl]), kept
    apart from the code for comparison: each cookie's remaining lifetime is
    its [expires] in seconds from now and its [maxAge], the smaller of the
    two when both are present; the result is the minimum over the cookies,
    capped at [cap], and [cap] when no cookie has a lifetime. *)
Record spec_lifetime : Type := mkSpecLifetime {
  sl_expires_in : option Z;
  sl_maxAge : option Z
}.

Definition spec_remaining (l : spec_lifetime) : option Z :=
  match sl_expires_in l, sl_maxAge l with
  | Some e, Some m => Some (Z.min e m)
  | Some e, None => Some e
  | None, Some m => Some m
  | None, None => None
  end.

Definition spec_minimumRemainingTtl (cap : Z) (cs : list spec_lifetime) : Z :=
  fold_left (fun acc l => match spec_remaining l with Some r => Z.min acc r | None => acc end)
    cs cap.

(** A [Set-Cookie] entry as the transport delivers it: a single value is a
    non-empty string and an array has at least one value. *)
Definition wf_set_cookie (h : set_cookie_hdr) : Prop :=
  match h with
  | SCAbsent => True
  | SCOne v => v <> EmptyString
  | SCMany l => l <> []
  end.

(** Event predicates used by the trace invariants. *)
Definition put_ttl_ok (c : config) (e : event) : Prop :=
  match e with EvPut _ _ ttl => ttl = cacheExpiration c | _ => True end.

Definition request_to_loginUrl (c : config) (e : event) : Prop :=
  match e with EvRequest u _ => u = loginUrl c | _ => True end.

(* ------------------------------------------------------------------ *)
(** ** The [customOptions] getter *)

Fixpoint decimal_aux (fuel n : nat) (acc : string) : string :=
  match fuel with
  | O => acc
  | S f =>
      let acc' := String (ascii_of_nat (48 + Nat.modulo n 10)) acc in
      if Nat.ltb n 10 then acc' else decimal_aux f (Nat.div n 10) acc'
  end.

(** [String(n)] for a natural number [n]. *)
Definition decimal (n : nat) : string := decimal_aux (S n) n EmptyString.

Fixpoint string_entries (i : nat) (s : string) : obj :=
  match s with
  | EmptyString => []
  | String a r => (decimal i, JStr (string_of_ascii a)) :: string_entries (S i) r
  end.

(** The own enumerable properties [Object.assign] copies from a source:
    those of an object, the indexed characters of a string, and none for a
    number, a boolean or [undefined]. *)
Definition own_entries (v : jsval) : obj :=
  match v with
  | JObj o => o
  | JStr s => string_entries 0 s
  | _ => []
  end.

(** [Object.assign(target, ...sources)] *)
Definition object_assign (target : obj) (sources : list jsval) : obj :=
  fold_left (fun acc src => assign_entries acc (own_entries src)) sources target.

(** [public get customOptions()] *)
Definition customOptions (i : instance) : obj :=
  object_assign []
    [JNum (Z.of_nat (maxRetryCount (cfg i))); JNum (cacheExpiration (cfg i));
     JNum (leastIntervalMills (cfg i)); JBool (reusesExpiredCookies (cfg i));
     JBool (storesExpiredCookies (cfg i))].

(* ------------------------------------------------------------------ *)
(** ** The user cache as a store

    [CacheService.getUserCache()] maps a key to the stored value and the
    time (ms) it expires; [JSON.stringify] and [JSON.parse] of the jar are
    taken to be inverse. *)

Definition cache_store := list (string * (list cookie_obj * Z)).

(** [Cache.get(key)] at time [t]: [null] when absent or expired. *)
Definition cache_get (st : cache_store) (k : string) (t : Z) : option (list cookie_obj) :=
  match obj_get st k with
  | Some (v, exp) => if t <? exp then Some v else None
  | None => None
  end.

(** [Cache.put(key, value, expirationInSeconds)] at time [t]. *)
Definition cache_store_put (st : cache_store) (k : string) (v : list cookie_obj) (ttl t : Z)
  : cache_store :=
  obj_set st k (v, t + 1000 * ttl).

(** [Cache.remove(key)] *)
Definition cache_remove (st : cache_store) (k : string) : cache_store :=
  filter (fun kv => negb (String.eqb (fst kv) k)) st.

(** A trace event applied to the cache at time [t]. *)
Definition cache_apply (t : Z) (st : cache_store) (e : event) : cache_store :=
  match e with
  | EvPut k v ttl => cache_store_put st k v ttl t
  | _ => st
  end.

(** [public clearCachedCookies()] *)
Definition clearCachedCookies (i : instance) (st : cache_store) : cache_store :=
  cache_remove st (cookiesKey (cfg i)).

(** [new AutoLoginFetchApp(lu, auth, co)] at time [t] against the cache [st]. *)
Definition new_client (dp : string -> option Z) (lu : string) (auth : obj)
  (co : option custom_options) (st : cache_store) (t : Z) : instance :=
  construct dp lu auth co (cache_get st (cookies_key lu) t) t.

(** The constructor's [hasExpiredCookie] for the jar [l] at time [t]:
    [l.some(it => Object.entries(it).some(([key, value]) =>
      key === 'Expires' && new Date(value) < new Date()))]. *)
Definition jar_has_expired (dp : string -> option Z) (l : list cookie_obj) (t : Z) : bool :=
  existsb (fun it => existsb (fun kv => String.eqb (fst kv) "Expires"
                                        && date_before dp (snd kv) t)%bool it) l.

(* ------------------------------------------------------------------ *)
(** ** More string helpers *)

(** [Some r] when [s = p ++ r]. *)
Fixpoint strip_prefix (p s : string) : option string :=
  match p, s with
  | EmptyString, _ => Some s
  | String a p', String b s' => if Ascii.eqb a b then strip_prefix p' s' else None
  | String _ _, EmptyString => None
  end.

(** [s.includes(p)] *)
Fixpoint includes (p s : string) : bool :=
  match strip_prefix p s with
  | Some _ => true
  | None => match s with EmptyString => false | String _ r => includes p r end
  end.

(** [s.toLowerCase()] on ASCII letters. *)
Definition ascii_lower (a : ascii) : ascii :=
  let n := nat_of_ascii a in
  if (Nat.leb 65 n && Nat.leb n 90)%bool then ascii_of_nat (n + 32) else a.

Fixpoint to_lower (s : string) : string :=
  match s with
  | EmptyString => EmptyString
  | String a r => String (ascii_lower a) (to_lower r)
  end.

(** [s.split(sep)] for a non-empty separator: the pieces between the
    non-overlapping occurrences of [sep] found from the left.  The [fuel]
    [String.length s] is enough, each step consuming a character. *)
Fixpoint split_str_aux (fuel : nat) (sep s cur : string) : list string :=
  match fuel with
  | O => [cur ++ s]
  | S f =>
      match s with
      | EmptyString => [cur]
      | String a r =>
          match strip_prefix sep s with
          | Some rest => cur :: split_str_aux f sep rest EmptyString
          | None => split_str_aux f sep r (cur ++ string_of_ascii a)
          end
      end
  end.

Definition split_str (sep s : string) : list string :=
  split_str_aux (String.length s) sep s EmptyString.

Definition ch_nl : ascii := ascii_of_nat 10.

(* ------------------------------------------------------------------ *)
(** ** The earlier revision of the class ([src/unnamed/part_002])

    The revision before [loginFormInput] and [requestOptions]: [fetch]
    attaches the [Cookie] header to the caller's [params] directly, the
    login POST is sent with the default [useCache = true], and the form
    extraction skips secondary submit and button controls.  Its retry loop,
    [sleepIfNeeded] and [saveCookies] are the same code as in the later
    revision, and are shared. *)

Module Earlier.

Definition dq : string := string_of_ascii ch_dquote.

Definition submit_selector : string := "form input button[type=" ++ dq ++ "submit" ++ dq ++ "]".

Definition button_selector : string := "form input button[type=" ++ dq ++ "button" ++ dq ++ "]".

(** [private static parseLoginForm(htmlContent)] *)
Definition parseLoginForm (doc : document) : obj :=
  let submitCount := length (doc submit_selector) in
  let buttonCount := length (doc button_selector) in
  fold_left
    (fun formData el =>
       match obj_get el "name" with
       | None => formData
       | Some name =>
           if String.eqb name "" then formData
           else
             let value := match obj_get el "value" with Some v => JStr v | None => JUndef end in
             let type := obj_get el "type" in
             let is_control :=
               match type with
               | Some ty => (String.eqb ty "submit" || String.eqb ty "button")%bool
               | None => false
               end in
             if (is_control && negb (Nat.eqb (submitCount + buttonCount) 1)
                 && negb (includes "login" (to_lower name)))%bool
             then formData
             else obj_set formData name value
       end)
    (doc "form input") [].

(** [fetch] after the cookie retrieval step: the [Cookie] header when
    [this.cookies] is set, then the retry loop. *)
Definition fetch_body (dp : string -> option Z) (url : string) (params : obj) : M response :=
  c <- get_cfg ;;
  cs <- gets (fun s => cookies (inst s)) ;;
  params2 <-
    match cs with
    | None => ret params
    | Some l =>
        match cookie_header l with
        | None => throw ErrTypeError
        | Some hdr =>
            match attach_cookie params hdr with
            | Some p => ret p
            | None => throw ErrTypeError
            end
        end
    end ;;
  fetch_attempts dp 1 (maxRetryCount c) url params2.

(** [private retrieveCookies()], over the [fetch] it calls; the POST is
    [this.fetch(this.loginUrl, req)], with [useCache] left to its default. *)
Definition retrieveCookies_with (dp : string -> option Z)
  (fetch : string -> obj -> bool -> M response) : M unit :=
  c <- get_cfg ;;
  loginPage <- fetch (loginUrl c) [] false ;;
  c1 <- get_cfg ;;
  let loginFormOptions := parseLoginForm (content loginPage) in
  let req := login_req loginFormOptions (authOptions c1) in
  r <- fetch (loginUrl c1) req true ;;
  ok <- saveCookies dp (setCookie r) ;;
  if ok then ret tt else throw ErrLoginFailed.

(** [public fetch(url, params = {}, useCache = true)]; [fuel] bounds the
    nesting of [fetch] inside [retrieveCookies]. *)
Fixpoint fetch (dp : string -> option Z) (fuel : nat) (url : string) (params : obj)
  (useCache : bool) : M response :=
  fun s =>
    match cookies (inst s) with
    | None =>
        if useCache then
          (match fuel with
           | O => throw ErrFuel
           | S f => retrieveCookies_with dp (fetch dp f)
           end ;;; fetch_body dp url params) s
        else fetch_body dp url params s
    | Some _ => fetch_body dp url params s
    end.

End Earlier.

(* ------------------------------------------------------------------ *)
(** ** The bundle splitter ([src/unnamed/part_001])

    The file system is a map from path to contents; the script's result is
    its exit status ([process.exit(1)], or 0 when it runs to the end) and
    the file system it leaves.  Console output is not modelled. *)

Module SplitBundle.

Definition files := list (string * string).

Definition TARGET_COMMENT : string :=
  "/* split-bundle.mjs @gas-AutoLoginFetchApp/entry-point */".
Definition SOURCE_FILE : string := "./dist/index.js".
Definition BUNDLE_FILE : string := "./dist/bundle.js".
Definition MAIN_FILE : string := "./dist/main.js".
Definition ENTRY_FILE : string := "./src/index.ts".

(** [fs.unlinkSync(path)] *)
Definition unlink (fs : files) (path : string) : files :=
  filter (fun kv => negb (String.eqb (fst kv) path)) fs.

(** [\w] *)
Definition is_word (a : ascii) : bool :=
  let n := nat_of_ascii a in
  (Nat.leb 65 n && Nat.leb n 90 || Nat.leb 97 n && Nat.leb n 122
   || Nat.leb 48 n && Nat.leb n 57 || Nat.eqb n 95)%bool.

Fixpoint star (p : ascii -> bool) (s : string) : string :=
  match s with
  | String a r => if p a then star p r else s
  | EmptyString => EmptyString
  end.

(** One or more characters satisfying [p], taken greedily; the classes the
    pattern chains are disjoint, so greedy matching loses no match. *)
Definition plus (p : ascii -> bool) (s : string) : option string :=
  match s with
  | String a r => if p a then Some (star p r) else None
  | EmptyString => None
  end.

Definition ch_lparen : ascii := ascii_of_nat 40.
Definition ch_rparen : ascii := ascii_of_nat 41.

(** [/function\s+\w+\s*\([^)]*\)/] matched at the start of [s]. *)
Definition global_function_at (s : string) : bool :=
  match strip_prefix "function" s with
  | None => false
  | Some r1 =>
      match plus is_ws r1 with
      | None => false
      | Some r2 =>
          match plus is_word r2 with
          | None => false
          | Some r3 =>
              match star is_ws r3 with
              | String a r4 => (Ascii.eqb a ch_lparen && has_char ch_rparen r4)%bool
              | EmptyString => false
              end
          end
      end
  end.

(** [entry.match(/function\s+\w+\s*\([^)]*\)/)] is not [null]. *)
Fixpoint has_global_function (s : string) : bool :=
  (global_function_at s ||
   match s with EmptyString => false | String _ r => has_global_function r end)%bool.

(** [it.trim() + '\n'] *)
Definition finish (it : string) : string := trim it ++ string_of_ascii ch_nl.

(** The script: read the bundle, cut it at the marker comment, write the
    first part to [bundle.js], delete [index.js], and write the second part
    to [main.js] when the entry point declares a global function.  A
    missing file makes [readFileSync] throw, which the [catch] turns into
    [process.exit(1)]. *)
Definition run (fs : files) : Z * files :=
  match obj_get fs SOURCE_FILE with
  | None => (1, fs)
  | Some source =>
      let parts := map finish (split_str TARGET_COMMENT source) in
      if negb (Nat.eqb (length parts) 2) then (1, fs)
      else
        let fs1 := obj_set fs BUNDLE_FILE (nth 0 parts EmptyString) in
        let fs2 := unlink fs1 SOURCE_FILE in
        match obj_get fs2 ENTRY_FILE with
        | None => (1, fs2)
        | Some entry =>
            if has_global_function entry
            then (0, obj_set fs2 MAIN_FILE (nth 1 parts EmptyString))
            else (0, fs2)
        end
  end.

End SplitBundle.

(** A build output with one marker comment, and an entry point that
    declares a global function. *)
Definition split_sample : SplitBundle.files :=
  [("./dist/index.js", "var a = 1;" ++ SplitBundle.TARGET_COMMENT ++ " main();");
   ("./src/index.ts", "function main() {}")].

(** A build output without the marker comment. *)
Definition split_no_marker : SplitBundle.files := [("./dist/index.js", "no marker here")].

(** A build output next to an unrelated file. *)
Definition split_with_readme : SplitBundle.files :=
  [("./dist/index.js", "a" ++ SplitBundle.TARGET_COMMENT ++ "b"); ("./README.md", "readme")].


(* ------------------------------------------------------------------ *)
(** ** Objects shared by reference in [fetch]

    [params = { ...params, ...this.requestOptions }] copies properties one
    level deep, so the [headers] object of the result is the one of the
    caller's [params] or of [this.requestOptions], and
    [params.headers['Cookie'] = ...] writes into that shared object.  Here
    objects live in a heap and object-valued properties hold references. *)

Module Shared.

Definition loc := nat.

Inductive hval : Type :=
| HUndef
| HStr (s : string)
| HNum (z : Z)
| HBool (b : bool)
| HRef (l : loc).

Definition hobj := list (string * hval).

Definition heap := list hobj.

Definition htruthy (v : hval) : bool :=
  match v with
  | HUndef => false
  | HStr s => negb (String.eqb s "")
  | HNum z => negb (z =? 0)
  | HBool b => b
  | HRef _ => true
  end.

Definition load (h : heap) (l : loc) : hobj := nth l h [].

Fixpoint list_set {A : Type} (l : list A) (n : nat) (x : A) : list A :=
  match l, n with
  | [], _ => []
  | _ :: r, O => x :: r
  | y :: r, S n' => y :: list_set r n' x
  end.

Definition store (h : heap) (l : loc) (o : hobj) : heap := list_set h l o.

(** A new object. *)
Definition alloc (h : heap) (o : hobj) : loc * heap := (List.length h, (h ++ [o])%list).

Definition hassign (o l : hobj) : hobj :=
  fold_left (fun acc kv => obj_set acc (fst kv) (snd kv)) l o.

(** [params = { ...params, ...this.requestOptions }] *)
Definition spread (h : heap) (p r : loc) : loc * heap :=
  alloc h (hassign (hassign [] (load h p)) (load h r)).

(** [params.headers = params.headers || {}; params.headers['Cookie'] = hdr];
    assigning a property of a primitive throws. *)
Definition attach (h : heap) (q : loc) (hdr : string) : option heap :=
  let '(v, h1) :=
    match obj_get (load h q) "headers" with
    | Some v => if htruthy v then (v, h) else let '(l, h') := alloc h [] in (HRef l, h')
    | None => let '(l, h') := alloc h [] in (HRef l, h')
    end in
  let h2 := store h1 q (obj_set (load h1 q) "headers" v) in
  match v with
  | HRef l => Some (store h2 l (obj_set (load h2 l) "Cookie" (HStr hdr)))
  | _ => None
  end.

(** The request options [fetch] hands to [UrlFetchApp.fetch], built from
    the caller's [params] at [p] and [this.requestOptions] at [r], with the
    [Cookie] header when [this.cookies] gives one. *)
Definition prepare (h : heap) (p r : loc) (cookie : option string) : option (loc * heap) :=
  let '(q, h1) := spread h p r in
  match cookie with
  | None => Some (q, h1)
  | Some hdr => match attach h1 q hdr with Some h2 => Some (q, h2) | None => None end
  end.

End Shared.

(* ------------------------------------------------------------------ *)
(** ** The first revision of the class ([AutoLoginFetchApp.ts], lines 30-141)

    All clients share one cache entry under a fixed key, holding the cookie
    string; [leastIntervalSec] is 5; [maxRetryCount] is 5; the login POST is
    a [fetch] with [useCache] left to [true].  The state holds the fields of
    the instance and the outside world: clock, what was done, and what the
    transport answers. *)

Module Oldest.

Definition SESSION_KEY : string := "##__COOKIES__##".
Definition COOKIES_NEED_TO_RETRIEVE : string := "##__NEED_TO_RETRIEVE__##".
Definition maxRetryCount : nat := 5.

Record AuthOption : Type := mkAuthOption {
  accountKey : string;
  accountValue : string;
  passwordKey : string;
  passwordValue : string
}.

(** What the client does to the outside world. *)
Inductive oevent : Type :=
| ORequest (url : string) (params : obj)
| OSleep (ms : Z)
| OPut (key value : string) (ttl : Z).

Record ostate : Type := mkOState {
  leastIntervalSec : Z;
  lastRequestTime : Z;
  loginUrl : string;
  authOption : AuthOption;
  cookies : string;
  o_clock : Z;
  o_trace : list oevent;
  o_script : list outcome
}.

Definition OM (A : Type) : Type := ostate -> (error + A) * ostate.

Definition oret {A : Type} (a : A) : OM A := fun s => (inr a, s).

Definition obind {A B : Type} (m : OM A) (f : A -> OM B) : OM B :=
  fun s =>
    match m s with
    | (inl e, s') => (inl e, s')
    | (inr a, s') => f a s'
    end.

Definition othrow {A : Type} (e : error) : OM A := fun s => (inl e, s).

Definition ogets {A : Type} (f : ostate -> A) : OM A := fun s => (inr (f s), s).

Local Notation "x <~ m ;; k" := (obind m (fun x => k))
  (at level 61, m at next level, right associativity).

Definition set_world (clk : Z) (tr : list oevent) (sc : list outcome) (s : ostate) : ostate :=
  mkOState (leastIntervalSec s) (lastRequestTime s) (loginUrl s) (authOption s) (cookies s)
    clk tr sc.

(** [new Date().getTime()] *)
Definition now : OM Z := ogets o_clock.

(** [Utilities.sleep(ms)] *)
Definition sleep (ms : Z) : OM unit :=
  fun s => (inr tt, set_world (o_clock s + ms) (o_trace s ++ [OSleep ms])%list (o_script s) s).

(** [UrlFetchApp.fetch(url, params)]; an exhausted script throws a plain error. *)
Definition urlFetch (url : string) (params : obj) : OM outcome :=
  fun s =>
    let tr := (o_trace s ++ [ORequest url params])%list in
    match o_script s with
    | [] => (inr FailOther, set_world (o_clock s) tr [] s)
    | o :: rest => (inr o, set_world (o_clock s) tr rest s)
    end.

(** [Cache.put(key, value, ttl)] *)
Definition cache_put (key value : string) (ttl : Z) : OM unit :=
  fun s => (inr tt, set_world (o_clock s) (o_trace s ++ [OPut key value ttl])%list (o_script s) s).

Definition set_lastRequestTime (t : Z) : OM unit :=
  fun s => (inr tt, mkOState (leastIntervalSec s) t (loginUrl s) (authOption s) (cookies s)
                      (o_clock s) (o_trace s) (o_script s)).

Definition set_cookies (c : string) : OM unit :=
  fun s => (inr tt, mkOState (leastIntervalSec s) (lastRequestTime s) (loginUrl s) (authOption s) c
                      (o_clock s) (o_trace s) (o_script s)).

(** The user cache: key to value and expiry time. *)
Definition ocache := list (string * (string * Z)).

(** [Cache.get(key)] at time [t]. *)
Definition ocache_get (st : ocache) (k : string) (t : Z) : option string :=
  match obj_get st k with
  | Some (v, exp) => if t <? exp then Some v else None
  | None => None
  end.

(** The effect on the cache of an event that happens at time [t]. *)
Definition ocache_apply (t : Z) (st : ocache) (e : oevent) : ocache :=
  match e with
  | OPut k v ttl => obj_set st k (v, t + 1000 * ttl)
  | _ => st
  end.

(** [constructor(loginUrl, authOption)] at time [t], the cache giving
    [cached] for [SESSION_KEY], in the world [tr], [sc]. *)
Definition construct (lu : string) (auth : AuthOption) (cached : option string) (t : Z)
  (tr : list oevent) (sc : list outcome) : ostate :=
  let c := match cached with
           | Some v => if String.eqb v "" then COOKIES_NEED_TO_RETRIEVE else v
           | None => COOKIES_NEED_TO_RETRIEVE
           end in
  mkOState 5 (t - 5) lu auth c t tr sc.

(** [Array.isArray(h) ? h.join(';') : h] *)
Definition cookie_string (h : set_cookie_hdr) : string :=
  match h with
  | SCMany l => join ";" l
  | SCOne v => v
  | SCAbsent => ""
  end.

(** [private saveCookies(headers)] *)
Definition saveCookies (headers : set_cookie_hdr) : OM bool :=
  if set_cookie_truthy headers then
    _ <~ set_cookies (cookie_string headers) ;;
    _ <~ cache_put SESSION_KEY (cookie_string headers) 21600 ;;
    oret true
  else oret false.

(** The retry loop of [fetch]. *)
Fixpoint fetch_attempts (i n : nat) (url : string) (params : obj) : OM response :=
  match n with
  | O => othrow ErrUnexpected
  | S n' =>
      o <~ urlFetch url params ;;
      match o with
      | Respond response =>
          t <~ now ;;
          _ <~ set_lastRequestTime t ;;
          _ <~ saveCookies (setCookie response) ;;
          oret response
      | FailStatus _ =>
          lis <~ ogets leastIntervalSec ;;
          _ <~ sleep (1000 * 2 ^ Z.of_nat i + lis) ;;
          fetch_attempts (S i) n' url params
      | FailOther => fetch_attempts (S i) n' url params
      end
  end.

(** [private static parseLoginForm(htmlContent)] *)
Definition parseLoginForm (doc : document) : obj :=
  fold_left
    (fun formData el =>
       match obj_get el "name" with
       | None => formData
       | Some name =>
           if String.eqb name "" then formData
           else
             let value := match obj_get el "value" with Some v => JStr v | None => JUndef end in
             let type := obj_get el "type" in
             if (match type with Some ty => String.eqb ty "submit" | None => false end
                 && negb (includes "login" (to_lower name)))%bool
             then formData
             else obj_set formData name value
       end)
    (doc "form input") [].

(** [private retrieveCookies()], over the [fetch] it calls; [undefined]
    options are passed as [{}], which [fetch] substitutes for them. *)
Definition retrieveCookies_with (fetch : string -> obj -> bool -> OM response) : OM unit :=
  lu <~ ogets loginUrl ;;
  loginPage <~ fetch lu [] false ;;
  let loginFormParams := parseLoginForm (content loginPage) in
  a <~ ogets authOption ;;
  let authParams := obj_set (obj_set [] (accountKey a) (JStr (accountValue a)))
                      (passwordKey a) (JStr (passwordValue a)) in
  let req := login_req loginFormParams authParams in
  lu1 <~ ogets loginUrl ;;
  r <~ fetch lu1 req true ;;
  ok <~ saveCookies (setCookie r) ;;
  if ok then oret tt else othrow ErrLoginFailed.

(** [public fetch(url, params?, useCache = true)]; [fuel] bounds the
    nesting of [fetch] inside [retrieveCookies]. *)
Fixpoint fetch (fuel : nat) (url : string) (params : obj) (useCache : bool) : OM response :=
  t <~ now ;;
  last <~ ogets lastRequestTime ;;
  lis <~ ogets leastIntervalSec ;;
  let interval := t - last in
  _ <~ (if interval <? lis then sleep (1000 * lis - interval) else oret tt) ;;
  c <~ ogets cookies ;;
  _ <~ (if (useCache && String.eqb c COOKIES_NEED_TO_RETRIEVE)%bool
        then match fuel with
             | O => othrow ErrFuel
             | S f => retrieveCookies_with (fetch f)
             end
        else oret tt) ;;
  c1 <~ ogets cookies ;;
  params2 <~ (if useCache
              then match attach_cookie params c1 with
                   | Some p => oret p
                   | None => othrow ErrTypeError
                   end
              else oret params) ;;
  fetch_attempts 1 maxRetryCount url params2.

End Oldest.

(** A login URL of exactly 232 characters before [tail]. *)
Definition padded_url (tail : string) : string :=
  "https://host/" ++ string_of_list_ascii (repeat "a"%char 219) ++ tail.

(** [m], run from a state with configuration [c], keeps the configuration
    and appends at most [k] transport requests to the trace. *)
Definition req_bounded {A : Type} (c : config) (k : nat) (m : M A) : Prop :=
  forall s, cfg (inst s) = c ->
    cfg (inst (snd (m s))) = c /\
    exists new, trace (wld (snd (m s))) = (trace (wld s) ++ new)%list /\
                (length (request_urls new) <= k)%nat.

(** Events that are not transport requests. *)
Definition no_request (c : config) (e : event) : Prop :=
  match e with EvRequest _ _ => False | _ => True end.



Open Scope list_scope.
Create HintDb traceinv.

Section TraceInvariant.

Variable date_parse : string -> option Z.
Variable ev_ok : config -> event -> Prop.
Hypothesis ev_ok_sleep : forall c ms, ev_ok c (EvSleep ms).
Hypothesis ev_ok_put : forall c v, ev_ok c (EvPut (cookiesKey c) v (cacheExpiration c)).

Definition trace_ext (s s' : state) : Prop :=
  cfg (inst s') = cfg (inst s) /\
  exists new, trace (wld s') = (trace (wld s) ++ new)%list /\ Forall (ev_ok (cfg (inst s))) new.

Definition ok_under (c : config) {A : Type} (m : M A) : Prop :=
  forall s, cfg (inst s) = c -> trace_ext s (snd (m s)).

Lemma trace_ext_refl : forall s, trace_ext s s.
Proof. intros s. split; [reflexivity | exists []; rewrite app_nil_r; auto]. Qed.

Lemma trace_ext_trans : forall s1 s2 s3,
  trace_ext s1 s2 -> trace_ext s2 s3 -> trace_ext s1 s3.
Proof.
  intros s1 s2 s3 [Hc1 [n1 [Ht1 Hf1]]] [Hc2 [n2 [Ht2 Hf2]]].
  split; [congruence |].
  exists (n1 ++ n2). rewrite Ht2, Ht1, app_assoc. split; [reflexivity |].
  apply Forall_app; split; [assumption | rewrite <- Hc1; assumption].
Qed.

Lemma ok_bind : forall c A B (m : M A) (f : A -> M B),
  ok_under c m -> (forall a, ok_under c (f a)) -> ok_under c (bind m f).
Proof.
  intros c A B m f Hm Hf s Hs. unfold bind.
  specialize (Hm s Hs). destruct (m s) as [[e | a] s1] eqn:E; cbn in *; [assumption |].
  apply trace_ext_trans with s1; [assumption |].
  apply Hf. destruct Hm as [Hc _]. congruence.
Qed.

Lemma ok_ret : forall c A (a : A), ok_under c (ret a).
Proof. intros c A a s _. apply trace_ext_refl. Qed.

Lemma ok_throw : forall c A (e : error), ok_under c (@throw A e).
Proof. intros c A e s _. apply trace_ext_refl. Qed.

Lemma ok_gets : forall c A (f : state -> A), ok_under c (gets f).
Proof. intros c A f s _. apply trace_ext_refl. Qed.

Lemma ok_get_cfg : forall c B (k : config -> M B),
  ok_under c (k c) -> ok_under c (x <- get_cfg ;; k x).
Proof.
  intros c B k Hk s Hs. unfold bind, get_cfg, gets. cbn. rewrite Hs. apply Hk, Hs.
Qed.

Lemma ok_sleep : forall c ms, ok_under c (sleep ms).
Proof.
  intros c ms s Hs. split; [reflexivity |].
  exists [EvSleep ms]. split; [reflexivity | auto].
Qed.

Lemma ok_set_cookies : forall c cs, ok_under c (set_cookies cs).
Proof.
  intros c cs s Hs. split; [reflexivity |]. exists []. rewrite app_nil_r. auto.
Qed.

Lemma ok_set_lastRequestTime : forall c t, ok_under c (set_lastRequestTime t).
Proof.
  intros c t s Hs. split; [reflexivity |]. exists []. rewrite app_nil_r. auto.
Qed.

Lemma ok_cache_put : forall c k v t,
  ev_ok c (EvPut k v t) -> ok_under c (cache_put k v t).
Proof.
  intros c k v t H s Hs. split; [reflexivity |].
  exists [EvPut k v t]. split; [reflexivity | rewrite Hs; auto].
Qed.

Lemma ok_urlFetch : forall c url p,
  ev_ok c (EvRequest url p) -> ok_under c (urlFetch url p).
Proof.
  intros c url p H s Hs. unfold urlFetch.
  destruct (script (emit (EvRequest url p) (wld s))); cbn;
    (split; [reflexivity | exists [EvRequest url p]; split; [reflexivity | rewrite Hs; auto]]).
Qed.

#[local] Hint Resolve ok_bind ok_ret ok_throw ok_gets ok_sleep ok_set_cookies
  ok_set_lastRequestTime ok_cache_put ok_urlFetch ok_get_cfg : traceinv.

Lemma ok_saveCookies : forall c h, ok_under c (saveCookies date_parse h).
Proof.
  intros c h. unfold saveCookies. destruct (set_cookie_truthy h).
  - apply ok_get_cfg. apply ok_bind; [apply ok_gets | intros t]. cbv zeta.
    apply ok_bind; [apply ok_set_cookies | intros _].
    apply ok_bind; [apply ok_cache_put, ev_ok_put | intros _]. apply ok_ret.
  - apply ok_ret.
Qed.

Lemma ok_sleepIfNeeded : forall c, ok_under c sleepIfNeeded.
Proof.
  intros c. unfold sleepIfNeeded.
  apply ok_bind; [apply ok_gets | intros t].
  apply ok_bind; [apply ok_gets | intros last].
  apply ok_get_cfg. destruct (_ <? _); auto with traceinv.
Qed.

#[local] Hint Resolve ok_saveCookies ok_sleepIfNeeded : traceinv.

Lemma ok_fetch_attempts : forall c url p,
  (forall q, ev_ok c (EvRequest url q)) ->
  forall n i, ok_under c (fetch_attempts date_parse i n url p).
Proof.
  intros c url p Hreq n. induction n as [| n IH]; intros i; cbn.
  - apply ok_throw.
  - apply ok_bind; [apply ok_sleepIfNeeded | intros _].
    apply ok_bind; [apply ok_urlFetch, Hreq | intros o].
    destruct o; eauto with traceinv.
Qed.

Lemma ok_fetch_body : forall c url p,
  (forall q, ev_ok c (EvRequest url q)) -> ok_under c (fetch_body date_parse url p).
Proof.
  intros c url p Hreq. unfold fetch_body. apply ok_get_cfg.
  apply ok_bind; [apply ok_gets | intros cs].
  apply ok_bind; [| intros; apply ok_fetch_attempts, Hreq].
  destruct cs as [l |]; [| apply ok_ret].
  destruct (cookie_header l); [| apply ok_throw].
  destruct (attach_cookie _ _); [apply ok_ret | apply ok_throw].
Qed.

Lemma fetch_suppressed : forall fuel url p s,
  fetch date_parse fuel url p false s = fetch_body date_parse url p s.
Proof. intros [| f] url p s; cbn; destruct (cookies (inst s)); reflexivity. Qed.

Lemma ok_retrieveCookies_with : forall c f,
  (forall q, ev_ok c (EvRequest (loginUrl c) q)) ->
  ok_under c (retrieveCookies_with date_parse (fetch date_parse f)).
Proof.
  intros c f Hreq. unfold retrieveCookies_with.
  apply ok_get_cfg.
  apply ok_bind; [intros s Hs; rewrite fetch_suppressed; apply (ok_fetch_body c); auto | intros page].
  apply ok_get_cfg.
  apply ok_bind; [intros s Hs; rewrite fetch_suppressed; apply (ok_fetch_body c); auto | intros r].
  apply ok_bind; [apply ok_saveCookies | intros b].
  destruct b; auto with traceinv.
Qed.

Lemma ok_fetch : forall c fuel url p b,
  (forall q, ev_ok c (EvRequest url q)) ->
  (forall q, ev_ok c (EvRequest (loginUrl c) q)) ->
  ok_under c (fetch date_parse fuel url p b).
Proof.
  intros c fuel url p b Hu Hl s Hs.
  destruct fuel as [| f]; cbn [fetch]; destruct (cookies (inst s));
    try (apply (ok_fetch_body c); auto; fail); destruct b;
    try (apply (ok_fetch_body c); auto; fail).
  - refine (ok_bind c _ _ _ _ _ _ s Hs); [apply ok_throw | intros _; apply ok_fetch_body; auto].
  - refine (ok_bind c _ _ _ _ _ _ s Hs);
      [apply ok_retrieveCookies_with; auto | intros _; apply ok_fetch_body; auto].
Qed.

End TraceInvariant.

(* ------------------------------------------------------------------ *)
(** ** Cache TTL *)

(** Every [Cache.put] a [fetch] call performs, the login flow included,
    passes the configured [cacheExpiration] as TTL, whatever the lifetimes
    of the stored cookies; the default is 21600 seconds. *)
Theorem fetch_puts_use_cacheExpiration :
  forall dp fuel url p b s,
    (exists new,
        trace (wld (snd (fetch dp fuel url p b s))) = trace (wld s) ++ new /\
        Forall (put_ttl_ok (cfg (inst s))) new) /\
    (forall lu auth cached t, cacheExpiration (cfg (construct dp lu auth None cached t)) = 21600).
Proof.
  intros dp fuel url p b s. split.
  - destruct (ok_fetch dp put_ttl_ok ltac:(intros; exact I) ltac:(intros; reflexivity)
                (cfg (inst s)) fuel url p b ltac:(intros; exact I) ltac:(intros; exact I)
                s eq_refl) as [_ H].
    exact H.
  - reflexivity.
Qed.

(** C1 (code defect): at the input of the repository's test 'returns
    short expiration cookies at Max-Age', where the login POST answers
    [Set-Cookie: session_id=xxxxx; Max-Age=3600], the TTL given to
    [Cache.put] is 21600; the claim's [minimumRemainingTtl], and the
    test's expected [Cache.put] TTL, are 3600. *)
Lemma cache_ttl_ignores_max_age :
  last_put_ttl (trace (wld (snd (run_fetch "https://localhost/login" None
     [page_response (login_page "https://localhost/login-request");
      cookie_response (SCOne "session_id=xxxxx; Max-Age=3600");
      page_response empty_doc] "https://localhost/mypage" [])))) = Some 21600 /\
  spec_minimumRemainingTtl 21600 [mkSpecLifetime None (Some 3600)] = 3600.
Proof. split; vm_compute; reflexivity. Qed.

(* ------------------------------------------------------------------ *)
(** ** Target of the login POST *)

(** Every request the login flow issues, the login-page GET and the
    credentials POST with their retries, goes to [loginUrl]; the form's
    [action] attribute is never read. *)
Theorem login_requests_target_loginUrl :
  forall dp fuel s,
    exists new,
      trace (wld (snd (retrieveCookies dp fuel s))) = trace (wld s) ++ new /\
      Forall (request_to_loginUrl (cfg (inst s))) new.
Proof.
  intros dp fuel s.
  destruct (ok_retrieveCookies_with dp request_to_loginUrl ltac:(intros; exact I)
              ltac:(intros; exact I) (cfg (inst s)) fuel ltac:(intros; reflexivity)
              s eq_refl) as [_ H].
  exact H.
Qed.

(** C3 (code defect): with [loginUrl = "https://host/login"] and a form
    whose [action] is ["/do-login"], the credentials POST (second request)
    goes to ["https://host/login"], not to the action resolved against
    [loginUrl], ["https://host/do-login"]. *)
Lemma login_post_ignores_action :
  request_urls (trace (wld (snd (run_fetch "https://host/login" None
     [page_response (login_page "/do-login");
      cookie_response (SCOne "session_id=xxxxx");
      page_response empty_doc] "https://host/mypage" [])))) =
  ["https://host/login"; "https://host/login"; "https://host/mypage"] /\
  "https://host/login" <> "https://host/do-login".
Proof. split; [vm_compute; reflexivity | discriminate]. Qed.

(* ------------------------------------------------------------------ *)
(** ** Options fixed at construction *)

(** C10: when [storesExpiredCookies] is passed as [true], the constructed
    client has [reusesExpiredCookies = true] and [storesExpiredCookies =
    true] whatever [reusesExpiredCookies] was passed, and no [fetch] call
    changes either flag (both are [readonly] fields, assigned only in the
    constructor). *)
Theorem stores_forces_reuses_and_config_fixed :
  forall dp lu auth o cached t,
    co_storesExpiredCookies o = Some true ->
    let i := construct dp lu auth (Some o) cached t in
    reusesExpiredCookies (cfg i) = true /\ storesExpiredCookies (cfg i) = true /\
    forall fuel url p b s,
      reusesExpiredCookies (cfg (inst (snd (fetch dp fuel url p b s)))) =
        reusesExpiredCookies (cfg (inst s)) /\
      storesExpiredCookies (cfg (inst (snd (fetch dp fuel url p b s)))) =
        storesExpiredCookies (cfg (inst s)).
Proof.
  intros dp lu auth o cached t Hs i. subst i. unfold construct. rewrite Hs. cbn.
  rewrite orb_true_r. split; [reflexivity | split; [reflexivity |]].
  intros fuel url p b s.
  destruct (ok_fetch dp (fun _ _ => True) ltac:(intros; exact I) ltac:(intros; exact I)
              (cfg (inst s)) fuel url p b ltac:(intros; exact I) ltac:(intros; exact I)
              s eq_refl) as [H _].
  rewrite H. split; reflexivity.
Qed.

Lemma stores_forces_reuses_and_config_fixed_witness :
  co_storesExpiredCookies
    (mkCustomOptions None None None (Some false) (Some true) None None) = Some true /\
  reusesExpiredCookies (cfg (construct no_dates "https://localhost/login" auth0
    (Some (mkCustomOptions None None None (Some false) (Some true) None None)) None t0)) = true.
Proof.
  split; [reflexivity |].
  exact (proj1 (stores_forces_reuses_and_config_fixed no_dates "https://localhost/login" auth0
    (mkCustomOptions None None None (Some false) (Some true) None None) None t0 eq_refl)).
Defined.

(* ------------------------------------------------------------------ *)
(** ** Retry loop *)

Lemma sleepIfNeeded_noop : forall s,
  leastIntervalMills (cfg (inst s)) <= clock (wld s) - lastRequestTime (inst s) ->
  sleepIfNeeded s = (inr tt, s).
Proof.
  intros s H. unfold sleepIfNeeded, bind, now, gets, get_cfg. cbn.
  destruct (Z.ltb_spec (clock (wld s) - lastRequestTime (inst s))
              (leastIntervalMills (cfg (inst s)))); [lia | reflexivity].
Qed.

Lemma sleepIfNeeded_cases : forall s,
  (leastIntervalMills (cfg (inst s)) <= clock (wld s) - lastRequestTime (inst s) /\
   sleepIfNeeded s = (inr tt, s)) \/
  (exists d,
     leastIntervalMills (cfg (inst s)) <= clock (wld s) + d - lastRequestTime (inst s) /\
     sleepIfNeeded s =
       (inr tt, mkState (inst s) (mkWorld (clock (wld s) + d)
                                  (trace (wld s) ++ [EvSleep d]) (script (wld s))))).
Proof.
  intros s. unfold sleepIfNeeded, bind, now, gets, get_cfg. cbn.
  destruct (Z.ltb_spec (clock (wld s) - lastRequestTime (inst s))
              (leastIntervalMills (cfg (inst s)))).
  - right. eexists. split; [| reflexivity]. lia.
  - left. split; [lia | reflexivity].
Qed.

Lemma fetch_attempts_fail_step : forall dp i n url p s code rest,
  leastIntervalMills (cfg (inst s)) <= clock (wld s) - lastRequestTime (inst s) ->
  script (wld s) = FailStatus code :: rest ->
  fetch_attempts dp i (S n) url p s =
  fetch_attempts dp (S i) n url p
    (mkState (inst s) (mkWorld (clock (wld s) + 1000 * 2 ^ Z.of_nat i)
       (trace (wld s) ++ [EvRequest url p; EvSleep (1000 * 2 ^ Z.of_nat i)]) rest)).
Proof.
  intros dp i n url p s code rest Hl Hs.
  cbn [fetch_attempts]. unfold bind at 1. rewrite sleepIfNeeded_noop by exact Hl.
  destruct s as [st [clk tr sc]]; cbn in Hs; subst sc.
  cbn -[Z.mul Z.pow fetch_attempts]. unfold set_world. cbn -[Z.mul Z.pow fetch_attempts].
  rewrite <- app_assoc. reflexivity.
Qed.

Lemma fetch_attempts_all_fail : forall dp codes i url p s rest,
  leastIntervalMills (cfg (inst s)) <= clock (wld s) - lastRequestTime (inst s) ->
  script (wld s) = map FailStatus codes ++ rest ->
  fst (fetch_attempts dp i (length codes) url p s) = inl ErrUnexpected /\
  script (wld (snd (fetch_attempts dp i (length codes) url p s))) = rest /\
  trace (wld (snd (fetch_attempts dp i (length codes) url p s))) =
    trace (wld s) ++
    flat_map (fun j => [EvRequest url p; EvSleep (1000 * 2 ^ Z.of_nat j)]) (seq i (length codes)).
Proof.
  intros dp codes. induction codes as [| code codes IH]; intros i url p s rest Hl Hs.
  - cbn in *. rewrite app_nil_r. auto.
  - cbn [length]. rewrite (fetch_attempts_fail_step dp i (length codes) url p s code
                             (map FailStatus codes ++ rest) Hl Hs).
    match goal with |- context [fetch_attempts dp (S i) _ url p ?s2] =>
      destruct (IH (S i) url p s2 rest) as [H1 [H2 H3]]; cbn [inst wld clock script trace] end.
    + assert (0 <= 1000 * 2 ^ Z.of_nat i) by (apply Z.mul_nonneg_nonneg; [lia | apply Z.pow_nonneg; lia]).
      lia.
    + reflexivity.
    + split; [exact H1 | split; [exact H2 |]].
      rewrite H3. cbn. rewrite <- app_assoc. reflexivity.
Qed.

Lemma saveCookies_shape : forall dp h s,
  fst (saveCookies dp h s) = inr (set_cookie_truthy h) /\
  script (wld (snd (saveCookies dp h s))) = script (wld s) /\
  exists new, trace (wld (snd (saveCookies dp h s))) = trace (wld s) ++ new /\
              request_urls new = [].
Proof.
  intros dp h s. unfold saveCookies.
  destruct (set_cookie_truthy h) eqn:E.
  - cbn. split; [reflexivity | split; [reflexivity |]].
    eexists. split; [reflexivity | reflexivity].
  - cbn. split; [reflexivity | split; [reflexivity |]].
    exists []. rewrite app_nil_r. split; reflexivity.
Qed.

Lemma fetch_attempts_after_sleep : forall dp i n url p s s1,
  sleepIfNeeded s = (inr tt, s1) -> sleepIfNeeded s1 = (inr tt, s1) ->
  fetch_attempts dp i (S n) url p s = fetch_attempts dp i (S n) url p s1.
Proof.
  intros dp i n url p s s1 E E1. cbn [fetch_attempts].
  unfold bind. rewrite E, E1. reflexivity.
Qed.

(** One iteration from any state, sleeping first if the interval asks for
    it: a state [s1] with [leastIntervalMills] elapsed, reached by at most
    one sleep. *)
Lemma sleepIfNeeded_settles : forall s,
  exists s1 pre,
    sleepIfNeeded s = (inr tt, s1) /\ sleepIfNeeded s1 = (inr tt, s1) /\
    leastIntervalMills (cfg (inst s1)) <= clock (wld s1) - lastRequestTime (inst s1) /\
    inst s1 = inst s /\ script (wld s1) = script (wld s) /\
    trace (wld s1) = trace (wld s) ++ pre /\ (pre = [] \/ exists d, pre = [EvSleep d]).
Proof.
  intros s. destruct (sleepIfNeeded_cases s) as [[Hl E] | [d [Hl E]]].
  - exists s, []. rewrite app_nil_r. repeat split; auto.
  - exists (mkState (inst s) (mkWorld (clock (wld s) + d) (trace (wld s) ++ [EvSleep d])
                                  (script (wld s)))), [EvSleep d].
    repeat split; auto.
    + apply sleepIfNeeded_noop. cbn. exact Hl.
    + right. exists d. reflexivity.
Qed.

Lemma fetch_attempts_success : forall dp codes i n url p s r rest,
  (length codes < n)%nat ->
  script (wld s) = map FailStatus codes ++ Respond r :: rest ->
  fst (fetch_attempts dp i n url p s) = inr r /\
  script (wld (snd (fetch_attempts dp i n url p s))) = rest /\
  exists new, trace (wld (snd (fetch_attempts dp i n url p s))) = trace (wld s) ++ new /\
              length (request_urls new) = S (length codes).
Proof.
  intros dp codes. induction codes as [| code codes IH]; intros i n url p s r rest Hn Hs;
    (destruct n as [| n]; [cbn in Hn; lia |]);
    destruct (sleepIfNeeded_settles s) as [s1 [pre [E [E1 [Hl [Hi [Hsc [Htr Hpre]]]]]]]];
    rewrite (fetch_attempts_after_sleep dp i n url p s s1 E E1).
  - destruct (fetch_attempts dp i (S n) url p s1) as [res s'] eqn:EF. cbn [fst snd].
    cbn [fetch_attempts] in EF. unfold bind in EF. rewrite E1 in EF.
    destruct s1 as [st [clk tr sc]]; cbn in Hsc, Htr, Hi. subst sc.
    cbn [map app] in Hs. rewrite Hs in EF.
    cbn -[saveCookies] in EF. unfold set_inst, set_world in EF. cbn -[saveCookies] in EF.
    match type of EF with context [saveCookies dp (setCookie r) ?s3] =>
      destruct (saveCookies_shape dp (setCookie r) s3) as [F1 [F2 [nw [F3 F4]]]];
      destruct (saveCookies dp (setCookie r) s3) as [[e | b] s4] end;
      cbn in F1; [discriminate |].
    cbn in EF. injection EF as <- <-.
    cbn in F2, F3 |- *. split; [reflexivity | split; [exact F2 |]].
    exists (pre ++ [EvRequest url p] ++ nw). rewrite F3, Htr, !app_assoc.
    split; [reflexivity |].
    unfold request_urls. rewrite !flat_map_app. fold (request_urls nw). rewrite F4.
    destruct Hpre as [-> | [d ->]]; reflexivity.
  - cbn [map app] in Hs. rewrite Hs in Hsc.
    rewrite (fetch_attempts_fail_step dp i n url p s1 code _ Hl Hsc).
    match goal with |- context [fetch_attempts dp (S i) n url p ?s2] =>
      destruct (IH (S i) n url p s2 r rest) as [H1 [H2 [nw [H3 H4]]]] end.
    + cbn [length] in Hn. lia.
    + reflexivity.
    + split; [exact H1 | split; [exact H2 |]].
      exists (pre ++ [EvRequest url p; EvSleep (1000 * 2 ^ Z.of_nat i)] ++ nw).
      rewrite H3. cbn [trace wld]. rewrite Htr, !app_assoc. split; [reflexivity |].
      unfold request_urls. rewrite !flat_map_app. fold (request_urls nw).
      destruct Hpre as [-> | [d ->]]; cbn; rewrite H4; reflexivity.
Qed.

(** C6: the retry loop of [fetch] ([for i = 1 .. maxRetryCount]).  When
    the transport throws a status-carrying error on every attempt, exactly
    [maxRetryCount] requests are sent, the [i]-th failed request is
    immediately followed by a sleep of [1000 * 2^i] ms (the only other
    sleep is the rate-limit wait before the first attempt), and the call
    fails; when the first success follows [k < maxRetryCount] such
    failures, its response is returned after [k + 1] requests and no
    further transport outcome is consumed. *)
Theorem fetch_retry_backoff :
  forall dp url p s,
    (forall codes rest,
       length codes = maxRetryCount (cfg (inst s)) ->
       script (wld s) = map FailStatus codes ++ rest ->
       fst (fetch_attempts dp 1 (maxRetryCount (cfg (inst s))) url p s) = inl ErrUnexpected /\
       script (wld (snd (fetch_attempts dp 1 (maxRetryCount (cfg (inst s))) url p s))) = rest /\
       exists pre, (pre = [] \/ exists d, pre = [EvSleep d]) /\
         trace (wld (snd (fetch_attempts dp 1 (maxRetryCount (cfg (inst s))) url p s))) =
         trace (wld s) ++ pre ++
         flat_map (fun j => [EvRequest url p; EvSleep (1000 * 2 ^ Z.of_nat j)])
           (seq 1 (maxRetryCount (cfg (inst s))))) /\
    (forall codes r rest,
       (length codes < maxRetryCount (cfg (inst s)))%nat ->
       script (wld s) = map FailStatus codes ++ Respond r :: rest ->
       fst (fetch_attempts dp 1 (maxRetryCount (cfg (inst s))) url p s) = inr r /\
       script (wld (snd (fetch_attempts dp 1 (maxRetryCount (cfg (inst s))) url p s))) = rest /\
       exists new,
         trace (wld (snd (fetch_attempts dp 1 (maxRetryCount (cfg (inst s))) url p s))) =
         trace (wld s) ++ new /\ length (request_urls new) = S (length codes)).
Proof.
  intros dp url p s. split.
  - intros codes rest Hlen Hs. rewrite <- Hlen.
    destruct codes as [| code codes].
    + cbn. split; [reflexivity | split; [cbn in Hs; exact Hs |]].
      exists []. split; [left; reflexivity | rewrite !app_nil_r; reflexivity].
    + destruct (sleepIfNeeded_settles s) as [s1 [pre [E [E1 [Hl [Hi [Hsc [Htr Hpre]]]]]]]].
      cbn [length]. rewrite (fetch_attempts_after_sleep dp 1 (length codes) url p s s1 E E1).
      rewrite <- Hsc in Hs.
      destruct (fetch_attempts_all_fail dp (code :: codes) 1 url p s1 rest Hl Hs)
        as [H1 [H2 H3]].
      cbn [length] in H1, H2, H3.
      split; [exact H1 | split; [exact H2 |]].
      exists pre. split; [exact Hpre |]. rewrite H3, Htr, app_assoc. reflexivity.
  - intros codes r rest Hlt Hs. exact (fetch_attempts_success dp codes 1 _ url p s r rest Hlt Hs).
Qed.

(* ------------------------------------------------------------------ *)
(** ** Login flow *)

Lemma fetch_body_keeps_cfg : forall dp url p s,
  cfg (inst (snd (fetch_body dp url p s))) = cfg (inst s).
Proof.
  intros dp url p s.
  destruct (ok_fetch_body dp (fun _ _ => True) ltac:(intros; exact I) ltac:(intros; exact I)
              (cfg (inst s)) url p ltac:(intros; exact I) s eq_refl) as [H _].
  exact H.
Qed.

Lemma retrieveCookies_unfold : forall dp fuel s page s1 r s2,
  fetch_body dp (loginUrl (cfg (inst s))) [] s = (inr page, s1) ->
  fetch_body dp (loginUrl (cfg (inst s)))
    (login_req (parseLoginForm (loginFormInput (cfg (inst s))) (content page))
               (authOptions (cfg (inst s)))) s1 = (inr r, s2) ->
  retrieveCookies dp fuel s =
  (ok <- saveCookies dp (setCookie r) ;; if ok then ret tt else throw ErrLoginFailed) s2.
Proof.
  intros dp fuel s page s1 r s2 H1 H2.
  assert (C1 : cfg (inst s1) = cfg (inst s)).
  { pose proof (fetch_body_keeps_cfg dp (loginUrl (cfg (inst s))) [] s) as H.
    rewrite H1 in H. exact H. }
  unfold retrieveCookies, retrieveCookies_with.
  unfold bind at 1, get_cfg at 1, gets at 1.
  unfold bind at 1. rewrite fetch_suppressed, H1.
  unfold bind at 1, get_cfg at 1, gets at 1. rewrite C1.
  unfold bind at 1. rewrite fetch_suppressed, H2. reflexivity.
Qed.

(** C8: once the login page and the login POST have been answered, the
    login flow throws [Failed to retrive its Cookie.] exactly when the
    POST's response has no [Set-Cookie] entry; otherwise it succeeds, the
    jar holds the cookies of that response and they are written to the
    cache. *)
Theorem login_fails_iff_no_set_cookie :
  forall dp fuel s page s1 r s2,
    fetch_body dp (loginUrl (cfg (inst s))) [] s = (inr page, s1) ->
    fetch_body dp (loginUrl (cfg (inst s)))
      (login_req (parseLoginForm (loginFormInput (cfg (inst s))) (content page))
                 (authOptions (cfg (inst s)))) s1 = (inr r, s2) ->
    wf_set_cookie (setCookie r) ->
    (fst (retrieveCookies dp fuel s) = inl ErrLoginFailed <-> setCookie r = SCAbsent) /\
    (setCookie r <> SCAbsent ->
       let cs := stored_cookies dp (storesExpiredCookies (cfg (inst s))) (clock (wld s2))
                   (setCookie r) in
       fst (retrieveCookies dp fuel s) = inr tt /\
       cookies (inst (snd (retrieveCookies dp fuel s))) = Some cs /\
       trace (wld (snd (retrieveCookies dp fuel s))) =
         trace (wld s2) ++ [EvPut (cookiesKey (cfg (inst s))) cs (cacheExpiration (cfg (inst s)))]).
Proof.
  intros dp fuel s page s1 r s2 H1 H2 Hwf.
  assert (C1 : cfg (inst s1) = cfg (inst s)).
  { pose proof (fetch_body_keeps_cfg dp (loginUrl (cfg (inst s))) [] s) as H.
    rewrite H1 in H. exact H. }
  assert (C2 : cfg (inst s2) = cfg (inst s)).
  { pose proof (fetch_body_keeps_cfg dp (loginUrl (cfg (inst s)))
      (login_req (parseLoginForm (loginFormInput (cfg (inst s))) (content page))
                 (authOptions (cfg (inst s)))) s1) as H.
    rewrite H2 in H. cbn [snd] in H. congruence. }
  rewrite (retrieveCookies_unfold dp fuel s page s1 r s2 H1 H2).
  unfold saveCookies.
  destruct (setCookie r) as [| v | l] eqn:Eh; cbn in Hwf |- *.
  - split; [split; reflexivity | intros []; reflexivity].
  - destruct (String.eqb_spec v "") as [-> | Hne]; [contradiction |]. cbn.
    rewrite C2. split; [split; discriminate | intros _; split; [reflexivity | split; reflexivity]].
  - rewrite C2. split; [split; discriminate | intros _; split; [reflexivity | split; reflexivity]].
Qed.

Lemma login_fails_iff_no_set_cookie_witness :
  wf_set_cookie (setCookie login_post0) /\
  (fst (retrieveCookies no_dates 1 login_state) = inl ErrLoginFailed <->
   setCookie login_post0 = SCAbsent).
Proof.
  split; [discriminate |].
  exact (proj1 (login_fails_iff_no_set_cookie no_dates 1 login_state login_page0
    (snd (fetch_body no_dates "https://localhost/login" [] login_state)) login_post0
    (snd (fetch_body no_dates "https://localhost/login"
            (login_req (parseLoginForm "form input" (content login_page0)) auth0)
            (snd (fetch_body no_dates "https://localhost/login" [] login_state))))
    ltac:(vm_compute; reflexivity) ltac:(vm_compute; reflexivity) ltac:(discriminate))).
Defined.

Lemma fetch_retry_backoff_witness :
  length [429; 429] = maxRetryCount (cfg (inst retry_state)) /\
  script (wld retry_state) = map FailStatus [429; 429] ++ [] /\
  fst (fetch_attempts no_dates 1 (maxRetryCount (cfg (inst retry_state)))
         "https://localhost/mypage" [] retry_state) = inl ErrUnexpected.
Proof.
  split; [reflexivity | split; [reflexivity |]].
  exact (proj1 (proj1 (fetch_retry_backoff no_dates "https://localhost/mypage" [] retry_state)
                  [429; 429] [] eq_refl eq_refl)).
Defined.

(* ------------------------------------------------------------------ *)
(** ** Request options *)

(** C2 (code defect): [fetch] spreads [this.requestOptions] after the
    caller's [params], so a configured option beats the caller's value for
    the same key: with [requestOptions = { method: 'get' }] a call
    [fetch(url, { method: 'post' })] is sent with [method: 'get']. *)
Lemma caller_options_lose_to_requestOptions :
  request_params (trace (wld (snd (run_cached "https://localhost/login"
     (Some (mkCustomOptions None None None None None None (Some [("method", JStr "get")])))
     [[("session_id", "xxxxx")]] [page_response empty_doc]
     "https://localhost/mypage" [("method", JStr "post")])))) =
  [[("method", JStr "get"); ("headers", JObj [("Cookie", JStr "session_id=xxxxx")])]].
Proof. vm_compute. reflexivity. Qed.

(* ------------------------------------------------------------------ *)
(** ** The Cookie header *)

(** C4 (code defect): the header serialises every entry of each parsed
    [Set-Cookie] value, attributes included: after the login POST answers
    [session_id=xxxxx; Max-Age=3600] the next request carries
    [Cookie: session_id=xxxxx; Max-Age=3600]; and a cached empty jar still
    attaches an empty [Cookie] header. *)
Lemma cookie_header_carries_attributes :
  nth 2 (request_params (trace (wld (snd (run_fetch "https://localhost/login" None
     [page_response (login_page "https://localhost/login-request");
      cookie_response (SCOne "session_id=xxxxx; Max-Age=3600");
      page_response empty_doc] "https://localhost/mypage" []))))) [] =
  [("headers", JObj [("Cookie", JStr "session_id=xxxxx; Max-Age=3600")])] /\
  request_params (trace (wld (snd (run_cached "https://localhost/login" None []
     [page_response empty_doc] "https://localhost/mypage" [])))) =
  [[("headers", JObj [("Cookie", JStr "")])]].
Proof. split; vm_compute; reflexivity. Qed.

(* ------------------------------------------------------------------ *)
(** ** Folding Set-Cookie into the jar *)

(** C5 (as amended): [saveCookies] with a [Set-Cookie] entry replaces the
    whole jar by the cookies parsed from that entry (expired ones dropped
    unless [storesExpiredCookies]), whatever the jar held before. *)
Theorem saveCookies_replaces_jar :
  forall dp h s,
    set_cookie_truthy h = true ->
    fst (saveCookies dp h s) = inr true /\
    cookies (inst (snd (saveCookies dp h s))) =
      Some (stored_cookies dp (storesExpiredCookies (cfg (inst s))) (clock (wld s)) h).
Proof.
  intros dp h s Ht. unfold saveCookies. rewrite Ht. cbn. split; reflexivity.
Qed.

Lemma saveCookies_replaces_jar_witness :
  set_cookie_truthy (SCOne "b=2") = true /\
  cookies (inst (snd (saveCookies no_dates (SCOne "b=2") login_state))) =
    Some (stored_cookies no_dates false t0 (SCOne "b=2")).
Proof.
  split; [reflexivity |].
  exact (proj2 (saveCookies_replaces_jar no_dates (SCOne "b=2") login_state eq_refl)).
Defined.

(** C5 counterexample: with [a=1] in the jar, a response setting only
    [b=2] leaves the jar holding [b=2] alone; [a] is gone. *)
Lemma set_cookie_drops_other_cookies :
  cookies (inst (snd (run_cached "https://localhost/login" None [[("a", "1")]]
     [cookie_response (SCOne "b=2")] "https://localhost/mypage" []))) =
  Some [[("b", "2")]].
Proof. vm_compute. reflexivity. Qed.

(* ------------------------------------------------------------------ *)
(** ** The login POST *)

(** C7 (code defect): [retrieveCookies] builds the POST with
    [followRedirects: false], but [fetch] spreads [requestOptions] over it:
    with [requestOptions = { followRedirects: true }] the login POST is
    sent with [followRedirects: true]. *)
Lemma login_post_followRedirects_overridden :
  obj_get (nth 1 (request_params (trace (wld (snd (run_fetch "https://localhost/login"
     (Some (mkCustomOptions None None None None None None
              (Some [("followRedirects", JBool true)])))
     [page_response (login_page "https://localhost/login-request");
      cookie_response (SCOne "session_id=xxxxx");
      page_response empty_doc] "https://localhost/mypage" []))))) []) "followRedirects" =
  Some (JBool true).
Proof. vm_compute. reflexivity. Qed.

(* ------------------------------------------------------------------ *)
(** ** Form extraction *)

Lemma in_keys_obj_set : forall (o : obj) k v n,
  In n (map fst (obj_set o k v)) <-> In n (map fst o) \/ n = k.
Proof.
  induction o as [| [k' v'] o IH]; intros k v n; cbn.
  - split; [intros [-> | []]; right; reflexivity | intros [[] | ->]; left; reflexivity].
  - destruct (String.eqb_spec k' k) as [-> | Hne]; cbn.
    + split; [intros H; left; exact H | intros [H | ->]; [exact H | left; reflexivity]].
    + rewrite IH. tauto.
Qed.



(** The login flow only reaches [fetch] through the callback it is given,
    always with [shouldRetrieveCookie = false]. *)
Lemma retrieveCookies_with_ext : forall dp (F1 F2 : string -> obj -> bool -> M response) s,
  (forall u p s', F1 u p false s' = F2 u p false s') ->
  retrieveCookies_with dp F1 s = retrieveCookies_with dp F2 s.
Proof.
  intros dp F1 F2 s H. unfold retrieveCookies_with, bind, get_cfg, gets. cbn beta iota.
  rewrite H. destruct (F2 _ [] false s) as [[e | page] s1]; [reflexivity |].
  cbn beta iota. rewrite H. reflexivity.
Qed.

(** Both inner [fetch] calls of the login flow pass
    [shouldRetrieveCookie = false], so the flow never re-enters itself:
    its result does not depend on the nesting budget. *)
Lemma retrieveCookies_does_not_recurse : forall dp fuel s,
  retrieveCookies dp fuel s = retrieveCookies dp 0 s.
Proof.
  intros dp fuel s. apply retrieveCookies_with_ext. intros u p s'.
  rewrite !fetch_suppressed. reflexivity.
Qed.

(* ------------------------------------------------------------------ *)
(** ** Helpers on strings and objects *)

Lemma str_app_assoc : forall a b c : string, ((a ++ b) ++ c)%string = (a ++ (b ++ c))%string.
Proof. induction a as [| x a IH]; intros b c; cbn; [reflexivity | rewrite IH; reflexivity]. Qed.

Lemma str_app_nil_r : forall a : string, (a ++ "")%string = a.
Proof. induction a as [| x a IH]; cbn; [reflexivity | rewrite IH; reflexivity]. Qed.

Lemma substring_app_prefix : forall p s n,
  substring 0 (String.length p + n) (p ++ s) = (p ++ substring 0 n s)%string.
Proof. induction p as [| x p IH]; intros s n; cbn; [reflexivity | rewrite IH; reflexivity]. Qed.

Lemma substring_length_le : forall n s, (String.length (substring 0 n s) <= n)%nat.
Proof.
  intros n s. revert n. induction s as [| x s IH]; intros [| n]; cbn; try lia.
  specialize (IH n). lia.
Qed.

Lemma obj_get_obj_set : forall {V : Type} (o : list (string * V)) k v n,
  obj_get (obj_set o k v) n = if String.eqb k n then Some v else obj_get o n.
Proof.
  intros V o. induction o as [| [k' v'] o IH]; intros k v n; cbn.
  - reflexivity.
  - destruct (String.eqb_spec k' k) as [-> | Hne]; cbn.
    + destruct (String.eqb k n); reflexivity.
    + rewrite IH. destruct (String.eqb_spec k' n) as [-> | Hn'];
        destruct (String.eqb_spec k n) as [-> | Hn]; congruence.
Qed.

Lemma obj_get_filter_key : forall {V : Type} (o : list (string * V)) k n,
  obj_get (filter (fun kv => negb (String.eqb (fst kv) k)) o) n =
  if String.eqb k n then None else obj_get o n.
Proof.
  intros V o. induction o as [| [k' v'] o IH]; intros k n; cbn.
  - destruct (String.eqb k n); reflexivity.
  - destruct (String.eqb_spec k' k) as [-> | Hne]; cbn.
    + rewrite IH. destruct (String.eqb k n); reflexivity.
    + rewrite IH. destruct (String.eqb_spec k' n) as [-> | Hn'];
        destruct (String.eqb_spec k n) as [-> | Hn]; congruence.
Qed.

Lemma obj_get_None_notin : forall {V : Type} (o : list (string * V)) k,
  obj_get o k = None -> ~ In k (map fst o).
Proof.
  intros V o. induction o as [| [k' v'] o IH]; intros k H; cbn in *; [tauto |].
  destruct (String.eqb_spec k' k) as [-> | Hne]; [discriminate |].
  intros [E | Hin]; [contradiction | exact (IH k H Hin)].
Qed.

Lemma NoDup_snoc : forall {A : Type} (l : list A) x, NoDup l -> ~ In x l -> NoDup (l ++ [x]).
Proof.
  intros A l. induction l as [| a l IH]; intros x Hn Hx; cbn.
  - constructor; [intros [] | constructor].
  - inversion Hn; subst. constructor.
    + rewrite in_app_iff. intros [H | [H | []]]; [contradiction | subst; apply Hx; left; reflexivity].
    + apply IH; [assumption | intros H; apply Hx; right; exact H].
Qed.

Lemma cookie_parse_nodup : forall str, NoDup (map fst (cookie_parse str)).
Proof.
  intros str. unfold cookie_parse.
  assert (G : forall l acc, NoDup (map fst acc) -> NoDup (map fst (fold_left parse_pair l acc))).
  { induction l as [| seg l IH]; intros acc H; cbn; [exact H |]. apply IH.
    unfold parse_pair. destruct (break_at ch_eq seg) as [[k0 v0] |]; [| exact H].
    destruct (obj_get acc (trim k0)) eqn:E; [exact H |].
    rewrite map_app. apply NoDup_snoc; [exact H | apply obj_get_None_notin; exact E]. }
  apply G. constructor.
Qed.

Lemma construct_cookiesKey : forall dp lu auth co cached t,
  cookiesKey (cfg (construct dp lu auth co cached t)) = cookies_key lu.
Proof. intros dp lu auth [o |] cached t; reflexivity. Qed.

Lemma construct_no_cache : forall dp lu auth co t,
  cookies (construct dp lu auth co None t) = None.
Proof. intros dp lu auth [o |] t; reflexivity. Qed.

Lemma existsb_key_absent : forall (it : cookie_obj) (f : string -> bool),
  ~ In "Expires" (map fst it) ->
  existsb (fun kv => (String.eqb (fst kv) "Expires" && f (snd kv))%bool) it = false.
Proof.
  induction it as [| [k v] it IH]; intros f H; cbn in *; [reflexivity |].
  destruct (String.eqb_spec k "Expires") as [-> | Hne]; [tauto |].
  cbn. apply IH. tauto.
Qed.

(** The constructor's expiry check and the one of [saveCookies] agree on
    a parsed cookie. *)
Lemma expires_check_is_expired : forall dp t (it : cookie_obj),
  dp "" = None -> NoDup (map fst it) ->
  existsb (fun kv => (String.eqb (fst kv) "Expires" && date_before dp (snd kv) t)%bool) it =
  is_expired dp t it.
Proof.
  intros dp t it Hdp. induction it as [| [k v] it IH]; intros Hn; [reflexivity |].
  inversion Hn as [| ? ? Hk Hn']; subst. unfold is_expired. cbn [obj_get existsb fst snd].
  destruct (String.eqb_spec k "Expires") as [-> | Hne]; cbn.
  - rewrite (existsb_key_absent it (fun v => date_before dp v t) Hk). rewrite orb_false_r.
    destruct (String.eqb_spec v "") as [-> | Hv]; cbn; [| reflexivity].
    unfold date_before. rewrite Hdp. reflexivity.
  - rewrite IH by exact Hn'. reflexivity.
Qed.

Lemma filtered_jar_not_expired : forall dp t (l : list cookie_obj),
  dp "" = None -> Forall (fun it => NoDup (map fst it)) l ->
  existsb (fun it => existsb (fun kv =>
     (String.eqb (fst kv) "Expires" && date_before dp (snd kv) t)%bool) it)
    (filter (fun it => negb (is_expired dp t it)) l) = false.
Proof.
  intros dp t l Hdp. induction l as [| it l IH]; intros Hf; [reflexivity |].
  inversion Hf as [| ? ? Hit Hl]; subst. cbn.
  destruct (is_expired dp t it) eqn:Ee; cbn; [apply IH; exact Hl |].
  rewrite expires_check_is_expired by assumption. rewrite Ee. cbn. apply IH; exact Hl.
Qed.

(* ------------------------------------------------------------------ *)
(** ** The [customOptions] getter *)

(** The getter hands the option values themselves, numbers and booleans,
    to [Object.assign] as sources; these have no own enumerable property,
    so for every client the getter returns an object with no property. *)
Theorem customOptions_getter_is_empty : forall i k,
  customOptions i = [] /\ obj_get (customOptions i) k = None.
Proof. intros i k. split; reflexivity. Qed.

(* ------------------------------------------------------------------ *)
(** ** The cache key and the cache *)

(** The cache key is ["AutoLoginFetchApp."] followed by [loginUrl], cut
    to 250 characters: it is never longer than 250, and two login URLs
    agreeing on their first 232 characters get the same key, so they share
    one cache entry. *)
Theorem cookies_key_shared_past_232 : forall lu1 lu2,
  substring 0 232 lu1 = substring 0 232 lu2 ->
  cookies_key lu1 = cookies_key lu2 /\ (String.length (cookies_key lu1) <= 250)%nat.
Proof.
  intros lu1 lu2 H. split; [| apply substring_length_le].
  unfold cookies_key.
  change 250%nat with (String.length "AutoLoginFetchApp." + 232)%nat.
  rewrite !substring_app_prefix, H. reflexivity.
Qed.

Lemma cookies_key_shared_past_232_witness :
  substring 0 232 (padded_url "/login") = substring 0 232 (padded_url "/signin") /\
  cookies_key (padded_url "/login") = cookies_key (padded_url "/signin").
Proof.
  split; [vm_compute; reflexivity |].
  exact (proj1 (cookies_key_shared_past_232 (padded_url "/login") (padded_url "/signin")
                  ltac:(vm_compute; reflexivity))).
Defined.

(** [clearCachedCookies] removes this client's cache entry and no other:
    afterwards a client constructed for the same [loginUrl] starts
    without cookies, so its first [fetch] logs in, while every other key
    reads as before. *)
Theorem clearCachedCookies_forgets_only_its_key :
  forall dp lu auth co cached t st auth' co' t' k t'',
    let i := construct dp lu auth co cached t in
    cookies (new_client dp lu auth' co' (clearCachedCookies i st) t') = None /\
    cache_get (clearCachedCookies i st) k t'' =
      if String.eqb k (cookies_key lu) then None else cache_get st k t''.
Proof.
  intros dp lu auth co cached t st auth' co' t' k t'' i. subst i.
  unfold new_client, clearCachedCookies, cache_remove, cache_get.
  rewrite construct_cookiesKey, !obj_get_filter_key, String.eqb_refl.
  split; [apply construct_no_cache |].
  rewrite String.eqb_sym. destruct (String.eqb k (cookies_key lu)); reflexivity.
Qed.

(** Passing [reusesExpiredCookies] or [storesExpiredCookies] as [true]
    makes the constructor skip the cache altogether: the client starts
    without cookies whatever the cache holds, so its first [fetch] runs the
    login flow before the request. *)
Theorem reuses_expired_never_loads_cache :
  forall dp lu auth o cached t,
    (co_reusesExpiredCookies o = Some true \/ co_storesExpiredCookies o = Some true) ->
    let i := construct dp lu auth (Some o) cached t in
    cookies i = None /\
    forall fuel url p w,
      fetch dp (S fuel) url p true (mkState i w) =
      (retrieveCookies dp fuel ;;; fetch_body dp url p) (mkState i w).
Proof.
  intros dp lu auth o cached t H i.
  assert (Hc : cookies i = None).
  { subst i. unfold construct.
    destruct (co_reusesExpiredCookies o) as [[] |], (co_storesExpiredCookies o) as [[] |];
      destruct H as [H | H]; try discriminate; destruct cached; reflexivity. }
  split; [exact Hc |].
  intros fuel url p w. cbn [fetch inst]. rewrite Hc. reflexivity.
Qed.

Lemma reuses_expired_never_loads_cache_witness :
  (co_reusesExpiredCookies (mkCustomOptions None None None None (Some true) None None) = Some true \/
   co_storesExpiredCookies (mkCustomOptions None None None None (Some true) None None) = Some true) /\
  cookies (construct no_dates "https://localhost/login" auth0
             (Some (mkCustomOptions None None None None (Some true) None None))
             (Some [[("session_id", "xxxxx")]]) t0) = None.
Proof.
  split; [right; reflexivity |].
  exact (proj1 (reuses_expired_never_loads_cache no_dates "https://localhost/login" auth0
    (mkCustomOptions None None None None (Some true) None None)
    (Some [[("session_id", "xxxxx")]]) t0 ltac:(right; reflexivity))).
Defined.

(** What a later client finds of the jar [saveCookies] stores.  The
    [Cache.put] it performs at time [T] makes a client constructed at any
    time [t'] for the same [loginUrl] start with: no cookies when its
    [reusesExpiredCookies] resolves to [true]; no cookies once the entry
    has expired ([t' >= T + 1000 * cacheExpiration]); no cookies when some
    saved cookie has an [Expires] before [t']; and otherwise exactly the
    saved jar.  With [storesExpiredCookies] off, no saved cookie has
    expired at [T] (given that [new Date('')] is an invalid date). *)
Theorem saved_jar_reloaded_by_next_client :
  forall dp h s st auth co t',
    cookiesKey (cfg (inst s)) = cookies_key (loginUrl (cfg (inst s))) ->
    set_cookie_truthy h = true ->
    let jar := stored_cookies dp (storesExpiredCookies (cfg (inst s))) (clock (wld s)) h in
    exists e,
      trace (wld (snd (saveCookies dp h s))) = trace (wld s) ++ [e] /\
      cookies (inst (snd (saveCookies dp h s))) = Some jar /\
      (cookies (new_client dp (loginUrl (cfg (inst s))) auth co
                 (cache_apply (clock (wld s)) st e) t') =
      if reusesExpiredCookies (cfg (construct dp (loginUrl (cfg (inst s))) auth co None t'))
      then None
      else if t' <? clock (wld s) + 1000 * cacheExpiration (cfg (inst s))
      then (if jar_has_expired dp jar t' then None else Some jar)
      else None) /\
      (dp "" = None -> storesExpiredCookies (cfg (inst s)) = false ->
       jar_has_expired dp jar (clock (wld s)) = false).
Proof.
  intros dp h s st auth co t' Hkey Ht jar.
  unfold saveCookies. rewrite Ht. cbn -[construct stored_cookies cookies_key Z.mul].
  eexists. split; [reflexivity |]. split; [reflexivity |].
  split; cycle 1.
  { intros Hdp Hst. subst jar. unfold stored_cookies, jar_has_expired. rewrite Hst.
    apply filtered_jar_not_expired; [exact Hdp |].
    apply Forall_forall. intros it Hin. apply in_map_iff in Hin as [v [<- _]].
    apply cookie_parse_nodup. }
  unfold new_client, cache_apply, cache_store_put, cache_get.
  rewrite obj_get_obj_set, Hkey, String.eqb_refl. fold jar.
  destruct (t' <? clock (wld s) + 1000 * cacheExpiration (cfg (inst s)));
  unfold construct, jar_has_expired;
  destruct co as [o |]; cbn -[Z.mul];
    try destruct (opt_or (co_reusesExpiredCookies o) false
                  || opt_or (co_storesExpiredCookies o) false)%bool; reflexivity.
Qed.

Lemma saved_jar_reloaded_by_next_client_witness :
  exists e,
    trace (wld (snd (saveCookies no_dates (SCOne "session_id=xxxxx") login_state))) =
      trace (wld login_state) ++ [e] /\
    cookies (new_client no_dates "https://localhost/login" auth0 None
               (cache_apply t0 [] e) (t0 + 60000)) =
    Some [[("session_id", "xxxxx")]].
Proof.
  destruct (saved_jar_reloaded_by_next_client no_dates (SCOne "session_id=xxxxx") login_state []
    auth0 None (t0 + 60000) eq_refl eq_refl) as [e [H1 [_ [H3 _]]]].
  exists e. split; [exact H1 |]. etransitivity; [exact H3 |]. vm_compute. reflexivity.
Defined.

(* ------------------------------------------------------------------ *)
(** ** Request counts *)

Lemma request_urls_app : forall a b, request_urls (a ++ b) = request_urls a ++ request_urls b.
Proof. intros a b. unfold request_urls. apply flat_map_app. Qed.

Lemma no_request_urls : forall c new, Forall (no_request c) new -> request_urls new = [].
Proof.
  intros c new H. induction H as [| e l He Hl IH]; [reflexivity |].
  destruct e; [contradiction | |]; exact IH.
Qed.

Lemma rb_of_ok : forall A c (m : M A), ok_under no_request c m -> req_bounded c 0 m.
Proof.
  intros A c m H s Hs. destruct (H s Hs) as [Hc [new [Ht Hf]]].
  split; [congruence |]. exists new. split; [exact Ht |].
  rewrite (no_request_urls _ _ Hf). cbn. lia.
Qed.

Lemma rb_mono : forall A c k k' (m : M A), (k <= k')%nat -> req_bounded c k m -> req_bounded c k' m.
Proof.
  intros A c k k' m Hk H s Hs. destruct (H s Hs) as [Hc [new [Ht Hl]]].
  split; [exact Hc |]. exists new. split; [exact Ht | lia].
Qed.

Lemma rb_ext : forall A c k (m1 m2 : M A), (forall s, m1 s = m2 s) ->
  req_bounded c k m2 -> req_bounded c k m1.
Proof. intros A c k m1 m2 E H s Hs. rewrite E. exact (H s Hs). Qed.

Lemma rb_bind : forall A B c k1 k2 (m : M A) (f : A -> M B),
  req_bounded c k1 m -> (forall a, req_bounded c k2 (f a)) -> req_bounded c (k1 + k2) (bind m f).
Proof.
  intros A B c k1 k2 m f Hm Hf s Hs. unfold bind.
  destruct (Hm s Hs) as [Hc1 [n1 [Ht1 Hl1]]].
  destruct (m s) as [[e | a] s1]; cbn in *.
  - split; [exact Hc1 |]. exists n1. split; [exact Ht1 | lia].
  - destruct (Hf a s1 Hc1) as [Hc2 [n2 [Ht2 Hl2]]]. split; [exact Hc2 |].
    exists (n1 ++ n2). rewrite Ht2, Ht1, app_assoc. split; [reflexivity |].
    rewrite request_urls_app, length_app. lia.
Qed.

Lemma rb_get_cfg : forall B c k (f : config -> M B),
  req_bounded c k (f c) -> req_bounded c k (x <- get_cfg ;; f x).
Proof. intros B c k f H s Hs. unfold bind, get_cfg, gets. cbn. rewrite Hs. exact (H s Hs). Qed.

Lemma rb_urlFetch : forall c url p, req_bounded c 1 (urlFetch url p).
Proof.
  intros c url p s Hs. unfold urlFetch.
  destruct (script (emit (EvRequest url p) (wld s))); cbn;
    (split; [exact Hs | exists [EvRequest url p]; split; [reflexivity | cbn; lia]]).
Qed.

Lemma no_request_sleep : forall (c : config) ms, no_request c (EvSleep ms).
Proof. intros; exact I. Qed.

Lemma no_request_put : forall (c : config) v, no_request c (EvPut (cookiesKey c) v (cacheExpiration c)).
Proof. intros; exact I. Qed.

Lemma rb_fetch_attempts : forall dp c url p n i, req_bounded c n (fetch_attempts dp i n url p).
Proof.
  intros dp c url p n. induction n as [| n IH]; intros i; cbn [fetch_attempts].
  - apply rb_of_ok, ok_throw.
  - replace (S n) with (0 + (1 + n))%nat by lia.
    apply rb_bind; [apply rb_of_ok, (ok_sleepIfNeeded no_request no_request_sleep) | intros _].
    apply rb_bind; [apply rb_urlFetch | intros o].
    destruct o as [r | code |].
    + apply (rb_mono _ _ 0); [lia |]. apply rb_of_ok.
      apply ok_bind; [apply ok_gets | intros t].
      apply ok_bind; [apply ok_set_lastRequestTime | intros _].
      apply ok_bind; [apply (ok_saveCookies dp no_request no_request_put) | intros _].
      apply ok_ret.
    + replace n with (0 + n)%nat at 1 by lia.
      apply rb_bind; [apply rb_of_ok, (ok_sleep no_request no_request_sleep) | intros _]. apply IH.
    + apply IH.
Qed.

Lemma rb_fetch_body : forall dp c url p, req_bounded c (maxRetryCount c) (fetch_body dp url p).
Proof.
  intros dp c url p. unfold fetch_body. apply rb_get_cfg.
  replace (maxRetryCount c) with (0 + (0 + maxRetryCount c))%nat at 1 by lia.
  apply rb_bind; [apply rb_of_ok, ok_gets | intros cs].
  apply rb_bind; [| intros q; apply rb_fetch_attempts].
  apply rb_of_ok. destruct cs as [l |]; [| apply ok_ret].
  destruct (cookie_header l); [| apply ok_throw].
  destruct (attach_cookie _ _); [apply ok_ret | apply ok_throw].
Qed.

Lemma rb_retrieveCookies_with : forall dp c f,
  req_bounded c (2 * maxRetryCount c) (retrieveCookies_with dp (fetch dp f)).
Proof.
  intros dp c f. unfold retrieveCookies_with. apply rb_get_cfg.
  replace (2 * maxRetryCount c)%nat with (maxRetryCount c + (maxRetryCount c + 0))%nat by lia.
  apply rb_bind; [apply (rb_ext _ _ _ _ (fetch_body dp (loginUrl c) []));
                  [intros s; apply fetch_suppressed | apply rb_fetch_body] | intros page].
  apply rb_get_cfg.
  apply rb_bind; [eapply rb_ext; [intros s; apply fetch_suppressed | apply rb_fetch_body] | intros r].
  replace 0%nat with (0 + 0)%nat by lia.
  apply rb_bind; [apply rb_of_ok, (ok_saveCookies dp no_request no_request_put) | intros b].
  apply rb_of_ok. destruct b; [apply ok_ret | apply ok_throw].
Qed.

(** One [fetch] call sends at most [3 * maxRetryCount] transport
    requests: the login page, the login POST and the request itself, each
    tried at most [maxRetryCount] times; when the client already holds
    cookies, or the login is suppressed, at most [maxRetryCount]. *)
Theorem fetch_request_bound : forall dp fuel url p b s,
  exists new,
    trace (wld (snd (fetch dp fuel url p b s))) = trace (wld s) ++ new /\
    (length (request_urls new) <=
       (if (b && match cookies (inst s) with None => true | Some _ => false end)%bool
        then 3 else 1) * maxRetryCount (cfg (inst s)))%nat.
Proof.
  intros dp fuel url p b s.
  assert (Body : forall k, (maxRetryCount (cfg (inst s)) <= k)%nat ->
            exists new, trace (wld (snd (fetch_body dp url p s))) = trace (wld s) ++ new /\
                        (length (request_urls new) <= k)%nat).
  { intros k Hk. destruct (rb_fetch_body dp (cfg (inst s)) url p s eq_refl) as [_ [new [Ht Hl]]].
    exists new. split; [exact Ht | lia]. }
  destruct fuel as [| f]; cbn [fetch]; destruct (cookies (inst s)); destruct b; cbn [andb];
    try (apply Body; lia).
  - destruct (rb_bind unit _ (cfg (inst s)) 0 (maxRetryCount (cfg (inst s))) (throw ErrFuel)
                (fun _ => fetch_body dp url p)
                (rb_of_ok _ _ _ (ok_throw no_request (cfg (inst s)) unit ErrFuel))
                (fun _ => rb_fetch_body dp _ url p) s eq_refl) as [_ [new [Ht Hl]]].
    exists new. split; [exact Ht | lia].
  - destruct (rb_bind _ _ (cfg (inst s)) (2 * maxRetryCount (cfg (inst s)))
                (maxRetryCount (cfg (inst s)))
                (retrieveCookies_with dp (fetch dp f)) (fun _ => fetch_body dp url p)
                (rb_retrieveCookies_with dp _ f)
                (fun _ => rb_fetch_body dp _ url p) s eq_refl) as [_ [new [Ht Hl]]].
    exists new. split; [exact Ht | lia].
Qed.

(* ------------------------------------------------------------------ *)
(** ** Retries without a response code, and no retries at all *)

(** A transport error without a response code is retried at once, with no
    backoff: when every attempt throws such an error, [maxRetryCount]
    requests go out back to back, the clock does not move, nothing else is
    recorded, and the loop ends with [Occurred an unexpected error.]. *)
Theorem plain_errors_retried_without_backoff : forall dp n i url p s rest,
  leastIntervalMills (cfg (inst s)) <= clock (wld s) - lastRequestTime (inst s) ->
  script (wld s) = repeat FailOther n ++ rest ->
  fetch_attempts dp i n url p s =
  (inl ErrUnexpected,
   mkState (inst s) (mkWorld (clock (wld s)) (trace (wld s) ++ repeat (EvRequest url p) n) rest)).
Proof.
  intros dp n. induction n as [| n IH]; intros i url p s rest Hl Hs.
  - destruct s as [st [clk tr sc]]; cbn in *. subst sc. rewrite app_nil_r. reflexivity.
  - cbn [fetch_attempts]. unfold bind at 1. rewrite sleepIfNeeded_noop by exact Hl.
    destruct s as [st [clk tr sc]]; cbn in Hs, Hl; subst sc.
    cbn -[fetch_attempts repeat]. unfold set_world. cbn -[fetch_attempts repeat].
    rewrite (IH _ _ _ _ rest); cbn [inst wld clock trace script]; [| exact Hl | reflexivity].
    rewrite <- app_assoc. reflexivity.
Qed.

Lemma plain_errors_retried_without_backoff_witness :
  fetch_attempts no_dates 1 2 "https://localhost/mypage" []
    (start client0 [FailOther; FailOther]) =
  (inl ErrUnexpected,
   mkState client0 (mkWorld t0 [EvRequest "https://localhost/mypage" [];
                                EvRequest "https://localhost/mypage" []] [])).
Proof.
  exact (plain_errors_retried_without_backoff no_dates 2 1 "https://localhost/mypage" []
    (start client0 [FailOther; FailOther]) [] ltac:(vm_compute; discriminate) eq_refl).
Defined.

Lemma fetch_body_zero_retries : forall dp url p s,
  maxRetryCount (cfg (inst s)) = 0%nat -> exists e, fetch_body dp url p s = (inl e, s).
Proof.
  intros dp url p s H. unfold fetch_body, bind, get_cfg, gets. cbn.
  destruct (cookies (inst s)) as [l |];
    [destruct (cookie_header l); [destruct (attach_cookie _ _) |] |]; cbn;
    rewrite ?H; eexists; reflexivity.
Qed.

Lemma fetch_zero_retries : forall dp fuel url p b s,
  maxRetryCount (cfg (inst s)) = 0%nat -> exists e, fetch dp fuel url p b s = (inl e, s).
Proof.
  intros dp fuel url p b s H.
  destruct fuel as [| f]; cbn [fetch]; destruct (cookies (inst s)); destruct b;
    try (apply fetch_body_zero_retries; exact H).
  - eexists. reflexivity.
  - destruct (fetch_body_zero_retries dp (loginUrl (cfg (inst s))) [] s H) as [e He].
    exists e.
    assert (R : retrieveCookies_with dp (fetch dp f) s = (inl e, s)).
    { unfold retrieveCookies_with.
      unfold bind at 1, get_cfg at 1, gets at 1. unfold bind at 1.
      rewrite fetch_suppressed, He. reflexivity. }
    unfold bind. rewrite R. reflexivity.
Qed.

(** With [maxRetryCount = 0] the retry loop never runs: every [fetch] call
    throws without sending a request, sleeping or writing the cache (the
    trace, clock and script are unchanged), and without changing the
    cookie jar or [lastRequestTime].  The [Cookie] header [fetch] may
    write before the loop into a shared [headers] object is not part of
    this statement (see [configured_headers_keep_cookie]). *)
Theorem zero_retries_fetch_is_inert : forall dp fuel url p b s,
  maxRetryCount (cfg (inst s)) = 0%nat ->
  exists e s', fetch dp fuel url p b s = (inl e, s') /\ wld s' = wld s /\
    cookies (inst s') = cookies (inst s) /\ lastRequestTime (inst s') = lastRequestTime (inst s).
Proof.
  intros dp fuel url p b s H.
  destruct (fetch_zero_retries dp fuel url p b s H) as [e He].
  exists e, s. repeat split; [exact He | reflexivity ..].
Qed.

Lemma zero_retries_fetch_is_inert_witness :
  exists e s', fetch no_dates 1 "https://localhost/mypage" [] true
    (start (construct no_dates "https://localhost/login" auth0
              (Some (mkCustomOptions (Some 0%nat) None None None None None None)) None t0)
           [page_response empty_doc]) = (inl e, s') /\
  wld s' = wld (start (construct no_dates "https://localhost/login" auth0
              (Some (mkCustomOptions (Some 0%nat) None None None None None None)) None t0)
           [page_response empty_doc]) /\
  cookies (inst s') = None /\
  lastRequestTime (inst s') = t0 - 5000.
Proof.
  destruct (zero_retries_fetch_is_inert no_dates 1 "https://localhost/mypage" [] true
    (start (construct no_dates "https://localhost/login" auth0
              (Some (mkCustomOptions (Some 0%nat) None None None None None None)) None t0)
           [page_response empty_doc]) eq_refl) as [e [s' [H1 [H2 [H3 H4]]]]].
  exists e, s'. split; [exact H1 |]. split; [exact H2 |].
  split; [rewrite H3 | rewrite H4]; vm_compute; reflexivity.
Defined.

(* ------------------------------------------------------------------ *)
(** ** Spacing of requests *)

Lemma saveCookies_keeps_clock_last : forall dp h s,
  clock (wld (snd (saveCookies dp h s))) = clock (wld s) /\
  lastRequestTime (inst (snd (saveCookies dp h s))) = lastRequestTime (inst s).
Proof. intros dp h s. unfold saveCookies. destruct (set_cookie_truthy h); split; reflexivity. Qed.

Lemma attempts_success_stamp : forall dp n i url p s r s1,
  fetch_attempts dp i n url p s = (inr r, s1) -> lastRequestTime (inst s1) = clock (wld s1).
Proof.
  intros dp n. induction n as [| n IH]; intros i url p s r s1 H; cbn [fetch_attempts] in H.
  - discriminate.
  - unfold bind at 1 in H. destruct (sleepIfNeeded s) as [[e | []] s2]; [discriminate |].
    unfold bind at 1 in H. destruct (urlFetch url p s2) as [[e | o] s3]; [discriminate |].
    destruct o as [resp | code |].
    + unfold bind, now, gets, set_lastRequestTime, modify in H.
      destruct (saveCookies_keeps_clock_last dp (setCookie resp)
                  (set_inst (fun i0 => mkInstance (cfg i0) (cookies i0) (clock (wld s3))) s3))
        as [Hc Hl].
      destruct (saveCookies dp (setCookie resp)
                  (set_inst (fun i0 => mkInstance (cfg i0) (cookies i0) (clock (wld s3))) s3))
        as [[e | b] s4]; [discriminate |].
      cbn in H. injection H as _ <-. cbn in Hc, Hl. rewrite Hc, Hl. reflexivity.
    + unfold bind, sleep, modify in H. exact (IH _ _ _ _ _ _ H).
    + exact (IH _ _ _ _ _ _ H).
Qed.

Lemma fetch_body_success_stamp : forall dp url p s r s1,
  fetch_body dp url p s = (inr r, s1) -> lastRequestTime (inst s1) = clock (wld s1).
Proof.
  intros dp url p s r s1 H. unfold fetch_body, bind, get_cfg, gets in H. cbn in H.
  destruct (cookies (inst s)) as [l |];
    [destruct (cookie_header l); [destruct (attach_cookie _ _) |] |]; cbn in H;
    try discriminate; eapply attempts_success_stamp; exact H.
Qed.

(** A [fetch] that returns a response leaves [lastRequestTime] at the time
    of that response; so when the client sends its next request right
    away, [sleepIfNeeded] first waits the full [leastIntervalMills]. *)
Theorem fetch_success_restarts_interval : forall dp fuel url p b s r s1,
  fetch dp fuel url p b s = (inr r, s1) ->
  lastRequestTime (inst s1) = clock (wld s1) /\
  (0 < leastIntervalMills (cfg (inst s1)) ->
   sleepIfNeeded s1 =
   (inr tt, mkState (inst s1)
      (mkWorld (clock (wld s1) + leastIntervalMills (cfg (inst s1)))
         (trace (wld s1) ++ [EvSleep (leastIntervalMills (cfg (inst s1)))]) (script (wld s1))))).
Proof.
  intros dp fuel url p b s r s1 H.
  assert (Hs : lastRequestTime (inst s1) = clock (wld s1)).
  { destruct fuel as [| f]; cbn [fetch] in H; destruct (cookies (inst s)); destruct b;
      try (eapply fetch_body_success_stamp; exact H).
    - discriminate.
    - unfold bind at 1 in H.
      destruct (retrieveCookies_with dp (fetch dp f) s) as [[e | []] s2]; [discriminate |].
      eapply fetch_body_success_stamp; exact H. }
  split; [exact Hs |]. intros Hpos.
  unfold sleepIfNeeded, bind, now, gets, get_cfg. cbn. rewrite Hs, Z.sub_diag.
  destruct (Z.ltb_spec 0 (leastIntervalMills (cfg (inst s1)))); [| lia].
  rewrite Z.sub_0_r. reflexivity.
Qed.

Lemma fetch_success_restarts_interval_witness :
  lastRequestTime (inst (snd (run_cached "https://localhost/login" None [[("session_id", "xxxxx")]]
     [page_response empty_doc] "https://localhost/mypage" []))) =
  clock (wld (snd (run_cached "https://localhost/login" None [[("session_id", "xxxxx")]]
     [page_response empty_doc] "https://localhost/mypage" []))).
Proof.
  exact (proj1 (fetch_success_restarts_interval no_dates 1 "https://localhost/mypage" [] true
    (start (construct no_dates "https://localhost/login" auth0 None
              (Some [[("session_id", "xxxxx")]]) t0) [page_response empty_doc])
    (mkResponse 200 SCAbsent empty_doc)
    (snd (run_cached "https://localhost/login" None [[("session_id", "xxxxx")]]
     [page_response empty_doc] "https://localhost/mypage" []))
    ltac:(vm_compute; reflexivity))).
Defined.

(** The constructor sets [lastRequestTime] to [leastIntervalMills] before
    the construction time, so the first request, made at or after that
    time, does not wait: [sleepIfNeeded] changes nothing. *)
Theorem fresh_client_does_not_sleep : forall dp lu auth co cached t w,
  t <= clock w ->
  sleepIfNeeded (mkState (construct dp lu auth co cached t) w) =
  (inr tt, mkState (construct dp lu auth co cached t) w).
Proof.
  intros dp lu auth co cached t w H. apply sleepIfNeeded_noop. cbn [inst wld].
  unfold construct. destruct co as [o |]; cbn; lia.
Qed.

Lemma fresh_client_does_not_sleep_witness :
  sleepIfNeeded (start client0 []) = (inr tt, start client0 []).
Proof. exact (fresh_client_does_not_sleep no_dates "https://localhost/login" auth0 None None t0
                (mkWorld t0 [] []) ltac:(cbn; lia)). Defined.

(* ------------------------------------------------------------------ *)
(** ** The login form and the login payload *)

Lemma obj_set_nodup : forall (o : obj) k v,
  NoDup (map fst o) -> NoDup (map fst (obj_set o k v)).
Proof.
  induction o as [| [k' v'] o IH]; intros k v H; cbn.
  - constructor; [intros [] | constructor].
  - inversion H as [| ? ? Hn Hd]; subst.
    destruct (String.eqb_spec k' k); cbn; constructor; auto.
    rewrite in_keys_obj_set. intros [Hi | Hi]; [exact (Hn Hi) | exact (n Hi)].
Qed.

Lemma obj_get_app : forall {V : Type} (a b : list (string * V)) k,
  obj_get (a ++ b) k = match obj_get a k with Some v => Some v | None => obj_get b k end.
Proof.
  intros V a. induction a as [| [k' v'] a IH]; intros b k; cbn; [reflexivity |].
  destruct (String.eqb k' k); [reflexivity | apply IH].
Qed.

Lemma obj_get_rev : forall {V : Type} (l : list (string * V)) k,
  NoDup (map fst l) -> obj_get (rev l) k = obj_get l k.
Proof.
  intros V l. induction l as [| [k' v'] l IH]; intros k H; cbn; [reflexivity |].
  inversion H as [| ? ? Hn Hd]; subst.
  rewrite obj_get_app, IH by exact Hd. cbn.
  destruct (String.eqb_spec k' k) as [<- |].
  - destruct (obj_get l k') eqn:E; [| reflexivity].
    exfalso. apply Hn. clear -E. induction l as [| [a b] l IH]; cbn in *; [discriminate |].
    destruct (String.eqb_spec a k'); [left; exact e | right; exact (IH E)].
  - destruct (obj_get l k); reflexivity.
Qed.

Lemma assign_entries_get : forall (o l : obj) k,
  obj_get (assign_entries o l) k =
  match obj_get (rev l) k with Some v => Some v | None => obj_get o k end.
Proof.
  intros o l k. revert o. induction l as [| x l IH] using rev_ind; intros o; [reflexivity |].
  unfold assign_entries in *. rewrite fold_left_app, rev_app_distr. cbn.
  rewrite obj_get_obj_set, IH. destruct x as [a b]. cbn. destruct (String.eqb a k); reflexivity.
Qed.

Lemma obj_spread_get : forall (a b : obj) k,
  NoDup (map fst a) -> NoDup (map fst b) ->
  obj_get (obj_spread a b) k = match obj_get b k with Some v => Some v | None => obj_get a k end.
Proof.
  intros a b k Ha Hb. unfold obj_spread.
  rewrite assign_entries_get, obj_get_rev, assign_entries_get, obj_get_rev by assumption.
  cbn. destruct (obj_get b k); [reflexivity |]. destruct (obj_get a k); reflexivity.
Qed.



Lemma parseLoginForm_nodup : forall sel doc, NoDup (map fst (parseLoginForm sel doc)).
Proof.
  intros sel doc. unfold parseLoginForm.
  assert (G : forall l (acc : obj), NoDup (map fst acc) ->
            NoDup (map fst (fold_left (fun formData el =>
                 match obj_get el "name" with
                 | None => formData
                 | Some name =>
                     if String.eqb name "" then formData
                     else obj_set formData name
                            (match obj_get el "value" with Some v => JStr v | None => JUndef end)
                 end) l acc))).
  { induction l as [| el l IH]; intros acc Ha; cbn; [exact Ha |]. apply IH.
    destruct (obj_get el "name") as [m |]; [| exact Ha].
    destruct (String.eqb m ""); [exact Ha | apply obj_set_nodup, Ha]. }
  apply G. constructor.
Qed.



(** The options [retrieveCookies] builds for the login POST are
    [method: post], the payload and [followRedirects: false]; the payload
    holds every field of [authOptions], over the form field of the same
    name, and every other field of the login form unchanged. *)
Theorem login_payload_auth_overrides_form : forall sel doc auth k,
  NoDup (map fst auth) ->
  exists payload,
    login_req (parseLoginForm sel doc) auth =
      [("method", JStr "post"); ("payload", JObj payload); ("followRedirects", JBool false)] /\
    obj_get payload k =
      match obj_get auth k with Some v => Some v | None => obj_get (parseLoginForm sel doc) k end.
Proof.
  intros sel doc auth k Ha. eexists. split; [reflexivity |].
  apply obj_spread_get; [apply parseLoginForm_nodup | exact Ha].
Qed.

Lemma login_payload_auth_overrides_form_witness :
  exists payload,
    login_req (parseLoginForm "form input" (login_page "https://localhost/login-request")) auth0 =
      [("method", JStr "post"); ("payload", JObj payload); ("followRedirects", JBool false)] /\
    obj_get payload "password" = Some (JStr "test_password").
Proof.
  destruct (login_payload_auth_overrides_form "form input"
              (login_page "https://localhost/login-request") auth0 "password"
              ltac:(repeat constructor; cbn; intuition discriminate)) as [pl [H1 H2]].
  exists pl. split; [exact H1 | rewrite H2; reflexivity].
Defined.

(* ------------------------------------------------------------------ *)
(** ** The earlier revision's login *)

Lemma bind_inr : forall A B (m : M A) (f : A -> M B) s a s',
  m s = (inr a, s') -> bind m f s = f a s'.
Proof. intros A B m f s a s' E. unfold bind. rewrite E. reflexivity. Qed.

Lemma bind_inl : forall A B (m : M A) (f : A -> M B) s e s',
  m s = (inl e, s') -> bind m f s = (inl e, s').
Proof. intros A B m f s e s' E. unfold bind. rewrite E. reflexivity. Qed.

Lemma earlier_fetch_suppressed : forall dp fuel url p s,
  Earlier.fetch dp fuel url p false s = Earlier.fetch_body dp url p s.
Proof. intros dp [| f] url p s; cbn; destruct (cookies (inst s)); reflexivity. Qed.

Lemma earlier_fetch_body_no_cookies : forall dp url p s,
  cookies (inst s) = None ->
  Earlier.fetch_body dp url p s = fetch_attempts dp 1 (maxRetryCount (cfg (inst s))) url p s.
Proof.
  intros dp url p s H. unfold Earlier.fetch_body.
  unfold bind at 1, get_cfg, gets. unfold bind at 1. rewrite H. reflexivity.
Qed.

Lemma fetch_attempts_first_response : forall dp i n url p s r rest,
  script (wld s) = Respond r :: rest -> set_cookie_truthy (setCookie r) = false ->
  exists s', fetch_attempts dp i (S n) url p s = (inr r, s') /\
    cfg (inst s') = cfg (inst s) /\ cookies (inst s') = cookies (inst s) /\
    script (wld s') = rest /\
    exists new, trace (wld s') = trace (wld s) ++ new /\
      request_urls new = [url] /\ request_params new = [p].
Proof.
  intros dp i n url p s r rest Hs Hf.
  destruct (sleepIfNeeded_settles s) as [s1 [pre [E [E1 [Hl [Hi [Hsc [Htr Hpre]]]]]]]].
  rewrite (fetch_attempts_after_sleep dp i n url p s s1 E E1).
  cbn [fetch_attempts]. unfold bind at 1. rewrite E1.
  destruct s1 as [st [clk tr sc]]; cbn in Hsc, Htr, Hi |- *. subst st. rewrite Hsc, Hs.
  cbn -[saveCookies]. unfold saveCookies. rewrite Hf.
  eexists. split; [reflexivity |]. cbn.
  split; [reflexivity | split; [reflexivity | split; [reflexivity |]]].
  exists (pre ++ [EvRequest url p]). rewrite Htr, app_assoc. split; [reflexivity |].
  unfold request_urls, request_params. rewrite !flat_map_app.
  destruct Hpre as [-> | [d ->]]; split; reflexivity.
Qed.

(** In the earlier revision the login POST is itself a cached [fetch], so
    while the client has no cookies it starts a new login before sending
    the POST: as long as the login page answers without a [Set-Cookie]
    header, the POST is never sent, only the login page is requested, again
    and again, until the recursion budget runs out. *)
Theorem earlier_login_recurses_on_login_page : forall dp pages rest s url p,
  cookies (inst s) = None -> (1 <= maxRetryCount (cfg (inst s)))%nat ->
  Forall (fun r => set_cookie_truthy (setCookie r) = false) pages ->
  script (wld s) = map Respond pages ++ rest ->
  fst (Earlier.fetch dp (length pages) url p true s) = inl ErrFuel /\
  exists new,
    trace (wld (snd (Earlier.fetch dp (length pages) url p true s))) = trace (wld s) ++ new /\
    request_urls new = repeat (loginUrl (cfg (inst s))) (length pages) /\
    request_params new = repeat [] (length pages).
Proof.
  intros dp pages. induction pages as [| r pages IH]; intros rest s url p Hc Hm Hf Hs.
  - cbn. rewrite Hc. cbn. split; [reflexivity |]. exists []. rewrite app_nil_r. auto.
  - inversion Hf as [| ? ? Hr Hfs]; subst.
    destruct (maxRetryCount (cfg (inst s))) as [| n] eqn:Em; [lia |].
    destruct (fetch_attempts_first_response dp 1 n (loginUrl (cfg (inst s))) [] s r
                (map Respond pages ++ rest) Hs Hr)
      as [s1 [E1 [Hc1 [Hk1 [Hs1 [n1 [Ht1 [Hu1 Hp1]]]]]]]].
    assert (Hk1' : cookies (inst s1) = None) by congruence.
    assert (Hm1 : (1 <= maxRetryCount (cfg (inst s1)))%nat) by (rewrite Hc1, Em; lia).
    destruct (IH rest s1 (loginUrl (cfg (inst s1)))
                (login_req (Earlier.parseLoginForm (content r)) (authOptions (cfg (inst s1))))
                Hk1' Hm1 Hfs Hs1) as [F [n2 [T2 [U2 P2]]]].
    destruct (Earlier.fetch dp (length pages) (loginUrl (cfg (inst s1)))
                (login_req (Earlier.parseLoginForm (content r)) (authOptions (cfg (inst s1))))
                true s1) as [res s2] eqn:E2.
    cbn [fst snd] in F, T2. subst res.
    assert (R : Earlier.retrieveCookies_with dp (Earlier.fetch dp (length pages)) s =
                (inl ErrFuel, s2)).
    { unfold Earlier.retrieveCookies_with.
      rewrite (bind_inr _ _ get_cfg _ s (cfg (inst s)) s) by reflexivity.
      rewrite (bind_inr _ _ _ _ s r s1).
      2: { rewrite earlier_fetch_suppressed, earlier_fetch_body_no_cookies by exact Hc.
           rewrite Em. exact E1. }
      rewrite (bind_inr _ _ get_cfg _ s1 (cfg (inst s1)) s1) by reflexivity.
      apply bind_inl. exact E2. }
    cbn [length Earlier.fetch]. rewrite Hc.
    rewrite (bind_inl _ _ _ _ s ErrFuel s2 R). cbn [fst snd].
    split; [reflexivity |].
    exists (n1 ++ n2). rewrite T2, Ht1, app_assoc. split; [reflexivity |].
    unfold request_urls, request_params in *. rewrite !flat_map_app, Hu1, Hp1, U2, P2, Hc1.
    split; reflexivity.
Qed.

Lemma earlier_login_recurses_on_login_page_witness :
  fst (Earlier.fetch no_dates 3 "https://localhost/mypage" [] true
         (start client0 [Respond login_page0; Respond login_page0; Respond login_page0])) =
    inl ErrFuel /\
  request_urls (trace (wld (snd (Earlier.fetch no_dates 3 "https://localhost/mypage" [] true
         (start client0 [Respond login_page0; Respond login_page0; Respond login_page0]))))) =
    ["https://localhost/login"; "https://localhost/login"; "https://localhost/login"].
Proof.
  destruct (earlier_login_recurses_on_login_page no_dates [login_page0; login_page0; login_page0] []
              (start client0 [Respond login_page0; Respond login_page0; Respond login_page0])
              "https://localhost/mypage" [] eq_refl ltac:(vm_compute; lia)
              ltac:(repeat constructor) eq_refl) as [F [nw [T [U _]]]].
  cbn [length] in F, T, U. split; [exact F |].
  rewrite T. cbn [start wld trace app]. rewrite U. reflexivity.
Defined.

(* ------------------------------------------------------------------ *)
(** ** The bundle splitter *)

Module SplitBundleFacts.
Import SplitBundle.

Lemma strip_prefix_app : forall p s r, strip_prefix p s = Some r -> s = (p ++ r)%string.
Proof.
  induction p as [| a p IH]; intros s r H; cbn in H.
  - injection H as <-. reflexivity.
  - destruct s as [| b s]; [discriminate |].
    destruct (Ascii.eqb_spec a b) as [<- |]; [| discriminate].
    cbn. f_equal. exact (IH s r H).
Qed.

Lemma split_str_aux_nonempty : forall f sep s cur, split_str_aux f sep s cur <> [].
Proof.
  induction f as [| f IH]; intros sep s cur; cbn; [discriminate |].
  destruct s as [| a r]; [discriminate |].
  destruct (strip_prefix sep (String a r)); [discriminate | apply IH].
Qed.

Lemma join_cons : forall sep x l, l <> [] -> join sep (x :: l) = (x ++ sep ++ join sep l)%string.
Proof. intros sep x [| y l] H; [contradiction | reflexivity]. Qed.

(** Joining the pieces of [split] with the separator gives the string back. *)
Lemma join_split_str_aux : forall f sep s cur,
  join sep (split_str_aux f sep s cur) = (cur ++ s)%string.
Proof.
  induction f as [| f IH]; intros sep s cur; cbn; [reflexivity |].
  destruct s as [| a r]; [cbn; symmetry; apply str_app_nil_r |].
  destruct (strip_prefix sep (String a r)) as [rest |] eqn:E.
  - rewrite (strip_prefix_app _ _ _ E), join_cons by apply split_str_aux_nonempty.
    rewrite IH. reflexivity.
  - rewrite IH, str_app_assoc. reflexivity.
Qed.

Lemma unlink_get : forall (fs : files) p k,
  obj_get (unlink fs p) k = if String.eqb p k then None else obj_get fs k.
Proof. intros fs p k. unfold unlink. apply obj_get_filter_key. Qed.

(** The three ways the script can go. *)
Lemma run_cases : forall fs,
  (obj_get fs SOURCE_FILE = None /\ run fs = (1, fs)) \/
  (exists source, obj_get fs SOURCE_FILE = Some source /\
     length (split_str TARGET_COMMENT source) <> 2%nat /\ run fs = (1, fs)) \/
  (exists p0 p1, obj_get fs SOURCE_FILE = Some (p0 ++ TARGET_COMMENT ++ p1)%string /\
     run fs =
       match obj_get fs ENTRY_FILE with
       | None => (1, unlink (obj_set fs BUNDLE_FILE (finish p0)) SOURCE_FILE)
       | Some entry =>
           if has_global_function entry
           then (0, obj_set (unlink (obj_set fs BUNDLE_FILE (finish p0)) SOURCE_FILE)
                      MAIN_FILE (finish p1))
           else (0, unlink (obj_set fs BUNDLE_FILE (finish p0)) SOURCE_FILE)
       end).
Proof.
  intros fs. unfold run.
  destruct (obj_get fs SOURCE_FILE) as [source |]; [right | left; auto].
  pose proof (join_split_str_aux (String.length source) TARGET_COMMENT source "") as J.
  fold (split_str TARGET_COMMENT source) in J |- *.
  destruct (split_str TARGET_COMMENT source) as [| q0 [| q1 [| q2 l]]] eqn:Es;
    cbn [map length Nat.eqb negb].
  - left. exists source. rewrite Es. auto.
  - left. exists source. rewrite Es. auto.
  - right. exists q0, q1. cbn [join] in J. split; [rewrite J; reflexivity |].
    cbn [nth]. rewrite unlink_get, obj_get_obj_set.
    replace (String.eqb SOURCE_FILE ENTRY_FILE) with false by reflexivity.
    replace (String.eqb BUNDLE_FILE ENTRY_FILE) with false by reflexivity.
    reflexivity.
  - left. exists source. rewrite Es. cbn. split; [reflexivity | split; [discriminate | reflexivity]].
Qed.

End SplitBundleFacts.

(** When the splitter exits with status 0, [index.js] was the bundle part,
    the marker comment and the main part, in this order; [bundle.js] now
    holds the trimmed bundle part with a final newline, [index.js] is
    gone, and [main.js] holds the trimmed main part when [src/index.ts]
    declares a global function, and is left as it was otherwise. *)
Theorem split_bundle_success_round_trip : forall fs fs',
  SplitBundle.run fs = (0, fs') ->
  exists p0 p1 entry,
    obj_get fs SplitBundle.SOURCE_FILE = Some (p0 ++ SplitBundle.TARGET_COMMENT ++ p1)%string /\
    obj_get fs SplitBundle.ENTRY_FILE = Some entry /\
    obj_get fs' SplitBundle.SOURCE_FILE = None /\
    obj_get fs' SplitBundle.BUNDLE_FILE = Some (SplitBundle.finish p0) /\
    obj_get fs' SplitBundle.MAIN_FILE =
      (if SplitBundle.has_global_function entry then Some (SplitBundle.finish p1)
       else obj_get fs SplitBundle.MAIN_FILE).
Proof.
  intros fs fs' H.
  destruct (SplitBundleFacts.run_cases fs) as [[_ E] | [[src [_ [_ E]]] | [p0 [p1 [Hs E]]]]];
    rewrite E in H; try discriminate.
  destruct (obj_get fs SplitBundle.ENTRY_FILE) as [entry |] eqn:He; [| discriminate].
  exists p0, p1, entry.
  split; [exact Hs | split; [reflexivity |]].
  destruct (SplitBundle.has_global_function entry); injection H as <-;
    rewrite ?obj_get_obj_set, !SplitBundleFacts.unlink_get, !obj_get_obj_set;
    repeat split; reflexivity.
Qed.

Lemma split_bundle_success_round_trip_witness :
  exists p0 p1 entry,
    obj_get split_sample SplitBundle.SOURCE_FILE =
      Some (p0 ++ SplitBundle.TARGET_COMMENT ++ p1)%string /\
    obj_get split_sample SplitBundle.ENTRY_FILE = Some entry /\
    obj_get (snd (SplitBundle.run split_sample)) SplitBundle.SOURCE_FILE = None /\
    obj_get (snd (SplitBundle.run split_sample)) SplitBundle.BUNDLE_FILE =
      Some (SplitBundle.finish p0) /\
    obj_get (snd (SplitBundle.run split_sample)) SplitBundle.MAIN_FILE =
      (if SplitBundle.has_global_function entry then Some (SplitBundle.finish p1)
       else obj_get split_sample SplitBundle.MAIN_FILE).
Proof.
  exact (split_bundle_success_round_trip split_sample _ ltac:(vm_compute; reflexivity)).
Defined.

(** Exit status 1 comes from a missing [index.js] or a marker comment that
    does not occur exactly once, with every file left as it was; or from a
    missing [src/index.ts], and then [bundle.js] has already been written
    and [index.js] deleted. *)
Theorem split_bundle_failure_cases : forall fs fs',
  SplitBundle.run fs = (1, fs') ->
  (fs' = fs /\
   (obj_get fs SplitBundle.SOURCE_FILE = None \/
    exists source, obj_get fs SplitBundle.SOURCE_FILE = Some source /\
      length (split_str SplitBundle.TARGET_COMMENT source) <> 2%nat)) \/
  (exists p0 p1,
     obj_get fs SplitBundle.SOURCE_FILE = Some (p0 ++ SplitBundle.TARGET_COMMENT ++ p1)%string /\
     obj_get fs SplitBundle.ENTRY_FILE = None /\
     fs' = SplitBundle.unlink (obj_set fs SplitBundle.BUNDLE_FILE (SplitBundle.finish p0))
             SplitBundle.SOURCE_FILE).
Proof.
  intros fs fs' H.
  destruct (SplitBundleFacts.run_cases fs) as [[Hn E] | [[src [Hs [Hl E]]] | [p0 [p1 [Hs E]]]]];
    rewrite E in H.
  - injection H as <-. left. auto.
  - injection H as <-. left. split; [reflexivity | right; exists src; auto].
  - right. exists p0, p1. split; [exact Hs |].
    destruct (obj_get fs SplitBundle.ENTRY_FILE) as [entry |];
      [destruct (SplitBundle.has_global_function entry); discriminate |].
    injection H as <-. auto.
Qed.

Lemma split_bundle_failure_cases_witness :
  SplitBundle.run split_no_marker = (1, split_no_marker) /\
  ((split_no_marker = split_no_marker /\
    (obj_get split_no_marker SplitBundle.SOURCE_FILE = None \/
     exists source, obj_get split_no_marker SplitBundle.SOURCE_FILE = Some source /\
       length (split_str SplitBundle.TARGET_COMMENT source) <> 2%nat)) \/
   (exists p0 p1,
      obj_get split_no_marker SplitBundle.SOURCE_FILE =
        Some (p0 ++ SplitBundle.TARGET_COMMENT ++ p1)%string /\
      obj_get split_no_marker SplitBundle.ENTRY_FILE = None /\
      split_no_marker =
        SplitBundle.unlink (obj_set split_no_marker SplitBundle.BUNDLE_FILE
          (SplitBundle.finish p0)) SplitBundle.SOURCE_FILE)).
Proof.
  split; [vm_compute; reflexivity |].
  exact (split_bundle_failure_cases split_no_marker split_no_marker
           ltac:(vm_compute; reflexivity)).
Defined.

(** The splitter only ever writes [bundle.js] and [main.js] and deletes
    [index.js]: every other path keeps its contents, whatever the exit
    status. *)
Theorem split_bundle_touches_only_its_files : forall fs k,
  k <> SplitBundle.SOURCE_FILE -> k <> SplitBundle.BUNDLE_FILE -> k <> SplitBundle.MAIN_FILE ->
  obj_get (snd (SplitBundle.run fs)) k = obj_get fs k.
Proof.
  intros fs k H1 H2 H3.
  assert (N : forall a, a <> k -> String.eqb a k = false)
    by (intros a Ha; apply String.eqb_neq; exact Ha).
  destruct (SplitBundleFacts.run_cases fs) as [[_ E] | [[src [_ [_ E]]] | [p0 [p1 [_ E]]]]];
    rewrite E; [reflexivity | reflexivity |].
  destruct (obj_get fs SplitBundle.ENTRY_FILE) as [entry |];
    [destruct (SplitBundle.has_global_function entry) |]; cbn [snd];
    rewrite ?obj_get_obj_set, ?N, !SplitBundleFacts.unlink_get, ?N, !obj_get_obj_set, ?N;
    auto.
Qed.

Lemma split_bundle_touches_only_its_files_witness :
  obj_get (snd (SplitBundle.run split_with_readme)) "./README.md" = Some "readme".
Proof.
  rewrite (split_bundle_touches_only_its_files split_with_readme "./README.md"
             ltac:(discriminate) ltac:(discriminate) ltac:(discriminate)).
  reflexivity.
Defined.

(** Running the splitter a second time always fails with status 1 and
    changes nothing: after the first run [index.js] is gone, or the first
    run already failed without touching anything. *)
Theorem split_bundle_second_run_fails : forall fs,
  SplitBundle.run (snd (SplitBundle.run fs)) = (1, snd (SplitBundle.run fs)).
Proof.
  intros fs.
  destruct (SplitBundleFacts.run_cases fs) as [[_ E] | [[src [_ [_ E]]] | [p0 [p1 [_ E]]]]];
    rewrite E; cbn [snd]; [exact E | exact E |].
  assert (G : forall fs', obj_get fs' SplitBundle.SOURCE_FILE = None ->
                SplitBundle.run fs' = (1, fs'))
    by (intros fs' Hn; unfold SplitBundle.run; rewrite Hn; reflexivity).
  destruct (obj_get fs SplitBundle.ENTRY_FILE) as [entry |];
    [destruct (SplitBundle.has_global_function entry) |]; cbn [snd]; apply G;
    rewrite ?obj_get_obj_set, SplitBundleFacts.unlink_get; reflexivity.
Qed.

(* ------------------------------------------------------------------ *)
(** ** The earlier revision's form extraction *)



(* ------------------------------------------------------------------ *)
(** ** The shared [headers] object *)

Module SharedFacts.
Import Shared.

Lemma length_list_set : forall {A : Type} (l : list A) n x, length (list_set l n x) = length l.
Proof. intros A l. induction l as [| a l IH]; intros [| n] x; cbn; auto. Qed.

Lemma nth_list_set_same : forall {A : Type} (l : list A) n x d,
  (n < length l)%nat -> nth n (list_set l n x) d = x.
Proof.
  intros A l. induction l as [| a l IH]; intros [| n] x d H; cbn in *; try lia; auto.
  apply IH. lia.
Qed.

Lemma nth_list_set_other : forall {A : Type} (l : list A) n m x d,
  m <> n -> nth m (list_set l n x) d = nth m l d.
Proof.
  intros A l. induction l as [| a l IH]; intros [| n] [| m] x d H; cbn; auto; try lia.
Qed.

Lemma load_alloc_old : forall h o m, (m < length h)%nat -> load (snd (alloc h o)) m = load h m.
Proof. intros h o m H. unfold load, alloc. cbn [snd]. apply app_nth1. exact H. Qed.

Lemma load_alloc_new : forall h o, load (snd (alloc h o)) (fst (alloc h o)) = o.
Proof. intros h o. unfold load, alloc. cbn. apply nth_middle. Qed.

Lemma hassign_get : forall (o l : hobj) k,
  obj_get (hassign o l) k = match obj_get (rev l) k with Some v => Some v | None => obj_get o k end.
Proof.
  intros o l k. revert o. induction l as [| x l IH] using rev_ind; intros o; [reflexivity |].
  unfold hassign in *. rewrite fold_left_app, rev_app_distr. cbn.
  rewrite obj_get_obj_set, IH. destruct x as [a b]. cbn. destruct (String.eqb a k); reflexivity.
Qed.

(** The merged options' [headers], when the options object at [r] has
    unique keys: [this.requestOptions.headers] if present, else the
    caller's. *)
Lemma spread_headers : forall h p r,
  NoDup (map fst (load h r)) ->
  obj_get (load (snd (spread h p r)) (fst (spread h p r))) "headers" =
  match obj_get (load h r) "headers" with
  | Some v => Some v
  | None => obj_get (rev (load h p)) "headers"
  end.
Proof.
  intros h p r Hr. unfold spread. rewrite load_alloc_new, hassign_get, obj_get_rev by exact Hr.
  rewrite hassign_get. destruct (obj_get (load h r) "headers"); [reflexivity |].
  destruct (obj_get (rev (load h p)) "headers"); reflexivity.
Qed.

(** Preparing a request with a [Cookie] header when the merged [headers]
    is the object at [l]: the new options object is allocated, and the only
    old object that changes is the one at [l], which gets the header. *)
Lemma prepare_writes_shared : forall h p r l hdr,
  (l < length h)%nat ->
  obj_get (load (snd (spread h p r)) (fst (spread h p r))) "headers" = Some (HRef l) ->
  exists h2,
    prepare h p r (Some hdr) = Some (length h, h2) /\ length h2 = S (length h) /\
    (forall m, (m < length h)%nat -> m <> l -> load h2 m = load h m) /\
    load h2 l = obj_set (load h l) "Cookie" (HStr hdr).
Proof.
  intros h p r l hdr Hl Hh. unfold prepare.
  destruct (spread h p r) as [q h1] eqn:Es. cbn [fst snd] in Hh.
  assert (Hq : q = length h) by (unfold spread, alloc in Es; injection Es as <- _; reflexivity).
  assert (Hlen : length h1 = S (length h))
    by (unfold spread, alloc in Es; injection Es as _ <-; rewrite length_app; cbn; lia).
  assert (Hold : forall m, (m < length h)%nat -> load h1 m = load h m).
  { intros m Hm. unfold spread in Es.
    rewrite <- (load_alloc_old h (hassign (hassign [] (load h p)) (load h r)) m Hm), Es.
    reflexivity. }
  subst q. unfold attach. rewrite Hh. cbn [htruthy].
  eexists. split; [reflexivity |].
  unfold store, load at 1 2 3 4.
  split; [rewrite !length_list_set; exact Hlen |]. split.
  - intros m Hm Hml. unfold load. rewrite nth_list_set_other by exact Hml.
    rewrite nth_list_set_other by lia. apply Hold. exact Hm.
  - unfold load. rewrite nth_list_set_same.
    + rewrite nth_list_set_other by lia. f_equal. apply Hold. exact Hl.
    + rewrite length_list_set. lia.
Qed.

End SharedFacts.

(** [fetch] writes its [Cookie] header into the [headers] object of
    [this.requestOptions] itself: that object keeps the header, and a later
    request sent without cookies (the login page of a client sharing these
    options, or the login fetch with [shouldRetrieveCookie = false]) is
    built with the same [headers] object and so carries the header. *)
Theorem configured_headers_keep_cookie : forall h p r l hdr p',
  NoDup (map fst (Shared.load h r)) -> r <> l -> (l < length h)%nat ->
  obj_get (Shared.load h r) "headers" = Some (Shared.HRef l) ->
  exists q h2,
    Shared.prepare h p r (Some hdr) = Some (q, h2) /\
    Shared.load h2 r = Shared.load h r /\
    obj_get (Shared.load h2 l) "Cookie" = Some (Shared.HStr hdr) /\
    exists q' h3,
      Shared.prepare h2 p' r None = Some (q', h3) /\
      obj_get (Shared.load h3 q') "headers" = Some (Shared.HRef l) /\
      obj_get (Shared.load h3 l) "Cookie" = Some (Shared.HStr hdr).
Proof.
  intros h p r l hdr p' Hd Hrl Hl Hh.
  assert (Hr : (r < length h)%nat).
  { destruct (Nat.ltb_spec r (length h)) as [| Hge]; [assumption |].
    unfold Shared.load in Hh. rewrite nth_overflow in Hh by exact Hge. discriminate. }
  destruct (SharedFacts.prepare_writes_shared h p r l hdr Hl)
    as [h2 [E [Hlen [Hold Hnew]]]].
  { rewrite SharedFacts.spread_headers, Hh by exact Hd. reflexivity. }
  exists (length h), h2. split; [exact E |].
  assert (Hr2 : Shared.load h2 r = Shared.load h r) by (apply Hold; assumption).
  split; [exact Hr2 |].
  split; [rewrite Hnew, obj_get_obj_set; reflexivity |].
  exists (fst (Shared.spread h2 p' r)), (snd (Shared.spread h2 p' r)).
  split; [unfold Shared.prepare; destruct (Shared.spread h2 p' r); reflexivity |].
  split.
  - rewrite SharedFacts.spread_headers, Hr2, Hh by (rewrite Hr2; exact Hd). reflexivity.
  - unfold Shared.spread. rewrite SharedFacts.load_alloc_old by lia.
    rewrite Hnew, obj_get_obj_set. reflexivity.
Qed.

Lemma configured_headers_keep_cookie_witness :
  exists q h2,
    Shared.prepare [[("headers", Shared.HRef 1%nat)]; []; []] 2%nat 0%nat
      (Some "session_id=xxxxx") = Some (q, h2) /\
    Shared.load h2 0%nat = Shared.load [[("headers", Shared.HRef 1%nat)]; []; []] 0%nat /\
    obj_get (Shared.load h2 1%nat) "Cookie" = Some (Shared.HStr "session_id=xxxxx") /\
    exists q' h3,
      Shared.prepare h2 2%nat 0%nat None = Some (q', h3) /\
      obj_get (Shared.load h3 q') "headers" = Some (Shared.HRef 1%nat) /\
      obj_get (Shared.load h3 1%nat) "Cookie" = Some (Shared.HStr "session_id=xxxxx").
Proof.
  exact (configured_headers_keep_cookie [[("headers", Shared.HRef 1%nat)]; []; []] 2%nat 0%nat
           1%nat "session_id=xxxxx" 2%nat ltac:(repeat constructor; intros [])
           ltac:(discriminate) ltac:(cbn; lia) eq_refl).
Defined.

(** When [this.requestOptions] has no [headers], [fetch] writes its
    [Cookie] header into the [headers] object of the caller's [params]:
    the caller's [params] still refers to that object, which now carries
    the header; nothing else the caller can reach changes. *)
Theorem caller_headers_get_cookie : forall h p r l hdr,
  NoDup (map fst (Shared.load h r)) -> NoDup (map fst (Shared.load h p)) ->
  p <> l -> (l < length h)%nat ->
  obj_get (Shared.load h r) "headers" = None ->
  obj_get (Shared.load h p) "headers" = Some (Shared.HRef l) ->
  exists q h2,
    Shared.prepare h p r (Some hdr) = Some (q, h2) /\ (length h <= q)%nat /\
    Shared.load h2 p = Shared.load h p /\
    Shared.load h2 l = obj_set (Shared.load h l) "Cookie" (Shared.HStr hdr) /\
    (forall m, (m < length h)%nat -> m <> l -> Shared.load h2 m = Shared.load h m).
Proof.
  intros h p r l hdr Hdr Hdp Hpl Hl Hr Hp.
  assert (Hpl' : (p < length h)%nat).
  { destruct (Nat.ltb_spec p (length h)) as [| Hge]; [assumption |].
    unfold Shared.load in Hp. rewrite nth_overflow in Hp by exact Hge. discriminate. }
  destruct (SharedFacts.prepare_writes_shared h p r l hdr Hl)
    as [h2 [E [Hlen [Hold Hnew]]]].
  { rewrite SharedFacts.spread_headers, Hr, obj_get_rev, Hp by assumption. reflexivity. }
  exists (length h), h2. split; [exact E | split; [lia |]].
  split; [apply Hold; assumption |]. split; [exact Hnew | exact Hold].
Qed.

Lemma caller_headers_get_cookie_witness :
  exists q h2,
    Shared.prepare [[]; [("headers", Shared.HRef 2%nat)]; [("Accept", Shared.HStr "*/*")]]
      1%nat 0%nat (Some "session_id=xxxxx") = Some (q, h2) /\ (3 <= q)%nat /\
    Shared.load h2 1%nat = [("headers", Shared.HRef 2%nat)] /\
    Shared.load h2 2%nat = obj_set [("Accept", Shared.HStr "*/*")] "Cookie"
                             (Shared.HStr "session_id=xxxxx") /\
    (forall m, (m < 3)%nat -> m <> 2%nat ->
       Shared.load h2 m =
       Shared.load [[]; [("headers", Shared.HRef 2%nat)]; [("Accept", Shared.HStr "*/*")]] m).
Proof.
  exact (caller_headers_get_cookie
           [[]; [("headers", Shared.HRef 2%nat)]; [("Accept", Shared.HStr "*/*")]]
           1%nat 0%nat 2%nat "session_id=xxxxx" ltac:(constructor)
           ltac:(repeat constructor; intros []) ltac:(discriminate) ltac:(cbn; lia)
           eq_refl eq_refl).
Defined.

(* ------------------------------------------------------------------ *)
(** ** The first revision *)

Lemma oldest_attempts_all_fail : forall codes i url p s rest,
  Oldest.o_script s = map FailStatus codes ++ rest ->
  fst (Oldest.fetch_attempts i (length codes) url p s) = inl ErrUnexpected /\
  Oldest.o_script (snd (Oldest.fetch_attempts i (length codes) url p s)) = rest /\
  Oldest.o_trace (snd (Oldest.fetch_attempts i (length codes) url p s)) =
    Oldest.o_trace s ++
    flat_map (fun j => [Oldest.ORequest url p;
                        Oldest.OSleep (1000 * 2 ^ Z.of_nat j + Oldest.leastIntervalSec s)])
             (seq i (length codes)).
Proof.
  induction codes as [| code codes IH]; intros i url p s rest Hs.
  - cbn in *. rewrite app_nil_r. auto.
  - destruct s as [lis last lu a c clk tr sc]; cbn in Hs; subst sc.
    cbn [length Oldest.fetch_attempts]. unfold Oldest.obind at 1. cbn -[Oldest.fetch_attempts].
    match goal with
    | |- context [Oldest.fetch_attempts (S i) (length codes) url p ?s'] =>
        destruct (IH (S i) url p s' rest eq_refl) as [F [S' T]]
    end.
    split; [exact F | split; [exact S' |]]. rewrite T. cbn. rewrite <- !app_assoc. reflexivity.
Qed.

(** The first revision's throttle compares an interval in milliseconds with
    [leastIntervalSec = 5]: a request sent 5 milliseconds or more after the
    previous one is not delayed at all, and one sent sooner waits
    [5000 - interval] milliseconds. *)
Theorem oldest_throttle_counts_milliseconds : forall fuel url p s r rest d,
  Oldest.leastIntervalSec s = 5 -> Oldest.lastRequestTime s = Oldest.o_clock s - d ->
  Oldest.o_script s = Respond r :: rest ->
  fst (Oldest.fetch fuel url p false s) = inr r /\
  Oldest.o_trace (snd (Oldest.fetch fuel url p false s)) =
    Oldest.o_trace s ++ (if d <? 5 then [Oldest.OSleep (5000 - d)] else []) ++
    Oldest.ORequest url p ::
    (if set_cookie_truthy (setCookie r)
     then [Oldest.OPut Oldest.SESSION_KEY (Oldest.cookie_string (setCookie r)) 21600] else []).
Proof.
  intros fuel url p s r rest d Hl Hlast Hs.
  destruct s as [lis last lu a c clk tr sc]; cbn in Hl, Hlast, Hs; subst lis last sc.
  replace (clk - (clk - d)) with d by lia.
  destruct fuel as [| f]; cbn [Oldest.fetch]; unfold Oldest.obind, Oldest.now, Oldest.ogets;
    cbn -[Oldest.fetch_attempts]; replace (clk - (clk - d)) with d by lia;
    destruct (d <? 5); cbn -[Oldest.saveCookies]; unfold Oldest.saveCookies;
    destruct (set_cookie_truthy (setCookie r)); cbn;
    (split; [reflexivity | rewrite <- ?app_assoc; reflexivity]).
Qed.

Lemma oldest_throttle_counts_milliseconds_witness :
  fst (Oldest.fetch 1 "https://localhost/mypage" [] false
         (Oldest.mkOState 5 (1000 - 5) "https://localhost/login"
            (Oldest.mkAuthOption "user" "u" "pass" "p") "sid=1" 1000 []
            [page_response empty_doc])) = inr (mkResponse 200 SCAbsent empty_doc) /\
  Oldest.o_trace (snd (Oldest.fetch 1 "https://localhost/mypage" [] false
         (Oldest.mkOState 5 (1000 - 5) "https://localhost/login"
            (Oldest.mkAuthOption "user" "u" "pass" "p") "sid=1" 1000 []
            [page_response empty_doc]))) =
    [] ++ (if 5 <? 5 then [Oldest.OSleep (5000 - 5)] else []) ++
    Oldest.ORequest "https://localhost/mypage" [] ::
    (if set_cookie_truthy SCAbsent
     then [Oldest.OPut Oldest.SESSION_KEY (Oldest.cookie_string SCAbsent) 21600] else []).
Proof.
  exact (oldest_throttle_counts_milliseconds 1 "https://localhost/mypage" []
           (Oldest.mkOState 5 (1000 - 5) "https://localhost/login"
              (Oldest.mkAuthOption "user" "u" "pass" "p") "sid=1" 1000 []
              [page_response empty_doc])
           (mkResponse 200 SCAbsent empty_doc) [] 5 eq_refl eq_refl eq_refl).
Defined.

(** In the first revision a status error is followed by a sleep of
    [1000 * 2 ** i + leastIntervalSec] milliseconds, the 5 of
    [leastIntervalSec] being added as milliseconds; after five such errors
    [fetch] throws. *)
Theorem oldest_backoff_adds_five_ms : forall fuel url p s codes rest,
  Oldest.leastIntervalSec s = 5 -> 5 <= Oldest.o_clock s - Oldest.lastRequestTime s ->
  length codes = 5%nat -> Oldest.o_script s = map FailStatus codes ++ rest ->
  fst (Oldest.fetch fuel url p false s) = inl ErrUnexpected /\
  Oldest.o_trace (snd (Oldest.fetch fuel url p false s)) =
    Oldest.o_trace s ++
    flat_map (fun j => [Oldest.ORequest url p; Oldest.OSleep (1000 * 2 ^ Z.of_nat j + 5)])
             (seq 1 5).
Proof.
  intros fuel url p s codes rest Hl Hi Hn Hs.
  assert (E : Oldest.fetch fuel url p false s =
              Oldest.fetch_attempts 1 (length codes) url p s).
  { rewrite Hn. destruct fuel as [| f]; cbn [Oldest.fetch];
      unfold Oldest.obind, Oldest.now, Oldest.ogets; cbn -[Oldest.fetch_attempts];
      destruct (Z.ltb_spec (Oldest.o_clock s - Oldest.lastRequestTime s)
                  (Oldest.leastIntervalSec s)); try lia; reflexivity. }
  rewrite E. destruct (oldest_attempts_all_fail codes 1 url p s rest Hs) as [F [_ T]].
  rewrite Hl in T. rewrite Hn in T |- *. rewrite Hn in F. split; [exact F | exact T].
Qed.

Lemma oldest_backoff_adds_five_ms_witness :
  fst (Oldest.fetch 1 "https://localhost/mypage" [] false
         (Oldest.construct "https://localhost/login" (Oldest.mkAuthOption "user" "u" "pass" "p")
            (Some "sid=1") 1000 [] (map FailStatus [500; 500; 500; 500; 500]))) =
    inl ErrUnexpected /\
  Oldest.o_trace (snd (Oldest.fetch 1 "https://localhost/mypage" [] false
         (Oldest.construct "https://localhost/login" (Oldest.mkAuthOption "user" "u" "pass" "p")
            (Some "sid=1") 1000 [] (map FailStatus [500; 500; 500; 500; 500])))) =
    [] ++ flat_map (fun j => [Oldest.ORequest "https://localhost/mypage" [];
                              Oldest.OSleep (1000 * 2 ^ Z.of_nat j + 5)]) (seq 1 5).
Proof.
  exact (oldest_backoff_adds_five_ms 1 "https://localhost/mypage" []
           (Oldest.construct "https://localhost/login" (Oldest.mkAuthOption "user" "u" "pass" "p")
              (Some "sid=1") 1000 [] (map FailStatus [500; 500; 500; 500; 500]))
           [500; 500; 500; 500; 500] [] eq_refl ltac:(cbn; lia) eq_refl
           ltac:(rewrite app_nil_r; reflexivity)).
Defined.

(** The first revision keeps its cookies under one fixed cache key: the
    cookies a client saves for its site are loaded by the next client
    whatever its login URL, which sends them in the [Cookie] header of its
    first request, to any URL, without logging in. *)
Theorem oldest_session_shared_across_sites :
  forall sA h st lu auth t sc fuel url p p2 r rest,
  set_cookie_truthy h = true ->
  Oldest.cookie_string h <> "" -> Oldest.cookie_string h <> Oldest.COOKIES_NEED_TO_RETRIEVE ->
  t < Oldest.o_clock sA + 1000 * 21600 ->
  sc = Respond r :: rest ->
  attach_cookie p (Oldest.cookie_string h) = Some p2 ->
  exists e,
    Oldest.o_trace (snd (Oldest.saveCookies h sA)) = Oldest.o_trace sA ++ [e] /\
    let B := Oldest.construct lu auth
               (Oldest.ocache_get (Oldest.ocache_apply (Oldest.o_clock sA) st e)
                  Oldest.SESSION_KEY t) t [] sc in
    Oldest.cookies B = Oldest.cookies (snd (Oldest.saveCookies h sA)) /\
    fst (Oldest.fetch fuel url p true B) = inr r /\
    exists post, Oldest.o_trace (snd (Oldest.fetch fuel url p true B)) = Oldest.ORequest url p2 :: post.
Proof.
  intros sA h st lu auth t sc fuel url p p2 r rest Ht Hne Hnn Htt Hsc Ha.
  exists (Oldest.OPut Oldest.SESSION_KEY (Oldest.cookie_string h) 21600).
  unfold Oldest.saveCookies. rewrite Ht. split; [reflexivity |].
  unfold Oldest.ocache_get, Oldest.ocache_apply. rewrite obj_get_obj_set, String.eqb_refl.
  destruct (Z.ltb_spec t (Oldest.o_clock sA + 1000 * 21600)) as [_ | ]; [| lia].
  unfold Oldest.construct. apply String.eqb_neq in Hne. rewrite Hne.
  split; [reflexivity |].
  apply String.eqb_neq in Hnn. subst sc.
  destruct fuel as [| f]; cbn [Oldest.fetch];
    unfold Oldest.obind, Oldest.now, Oldest.ogets; cbn -[Oldest.fetch_attempts attach_cookie];
    replace (t - (t - 5)) with 5 by lia; cbn -[Oldest.fetch_attempts attach_cookie];
    rewrite Hnn; cbn -[Oldest.fetch_attempts attach_cookie]; rewrite Ha; cbn -[Oldest.saveCookies];
    unfold Oldest.saveCookies; destruct (set_cookie_truthy (setCookie r)); cbn;
    (split; [reflexivity | eexists; reflexivity]).
Qed.

Lemma oldest_session_shared_across_sites_witness :
  exists e,
    Oldest.o_trace (snd (Oldest.saveCookies (SCOne "sid=1")
      (Oldest.construct "https://a.example/login" (Oldest.mkAuthOption "user" "u" "pass" "p")
         None 1000 [] []))) =
    Oldest.o_trace (Oldest.construct "https://a.example/login"
      (Oldest.mkAuthOption "user" "u" "pass" "p") None 1000 [] []) ++ [e] /\
    let B := Oldest.construct "https://b.example/login" (Oldest.mkAuthOption "id" "x" "pw" "y")
               (Oldest.ocache_get (Oldest.ocache_apply 1000 [] e) Oldest.SESSION_KEY 2000) 2000 []
               [page_response empty_doc] in
    Oldest.cookies B = Oldest.cookies (snd (Oldest.saveCookies (SCOne "sid=1")
      (Oldest.construct "https://a.example/login" (Oldest.mkAuthOption "user" "u" "pass" "p")
         None 1000 [] []))) /\
    fst (Oldest.fetch 1 "https://b.example/home" [] true B) =
      inr (mkResponse 200 SCAbsent empty_doc) /\
    exists post, Oldest.o_trace (snd (Oldest.fetch 1 "https://b.example/home" [] true B)) =
      Oldest.ORequest "https://b.example/home" [("headers", JObj [("Cookie", JStr "sid=1")])] :: post.
Proof.
  exact (oldest_session_shared_across_sites
           (Oldest.construct "https://a.example/login" (Oldest.mkAuthOption "user" "u" "pass" "p")
              None 1000 [] [])
           (SCOne "sid=1") [] "https://b.example/login" (Oldest.mkAuthOption "id" "x" "pw" "y")
           2000 [page_response empty_doc] 1 "https://b.example/home" []
           [("headers", JObj [("Cookie", JStr "sid=1")])] (mkResponse 200 SCAbsent empty_doc) []
           eq_refl ltac:(discriminate) ltac:(discriminate) ltac:(cbn; lia) eq_refl eq_refl).
Defined.
